(** * git-AuditTool: the CSV engine of [src/core/csv_processor.py]

    A shallow embedding of [FileProcessor], [DataMerger], [DataSummarizer]
    and [DataFilter], with the properties of the tabular engine stated over
    it.

    Conventions of the embedding.
    - Python exceptions are values of [exn]; an expression that may raise has
      type [outcome A]; a method, which also calls the progress callback,
      prints and writes files, has type [M A]: a function from the [world]
      before the call to its outcome and the world after it.
    - The file system, [chardet] and the parsers of [pandas] are not part of
      the repository: they are the fields of [Env], one oracle per call the
      source makes.
    - A [DataFrame] has an ordered list of column labels and, per row, a
      finite map from label to cell, under the default [RangeIndex].
    - The Python floats outside the tables (the detector's confidence, the
      averaged delimiter counts, the progress fractions, the file size) are
      rationals: every binary64 value is one, and a quotient or product is
      taken exactly, without the rounding of binary64.  The numbers held in
      table cells are the carrier of the class [Numeric]; what a property
      needs of them is a law of [ReprLaws] or [ExactArith]. *)

From Stdlib Require Import ZArith QArith Ascii String.
From Stdlib Require Import DecimalString DecimalZ.
From stdpp Require Import gmap strings list sorting pretty.

Open Scope Z_scope.

(** ** Python values, exceptions and effects *)

Module Py.

Record exn : Type := Exn { exn_class : string; exn_msg : string }.

(** [str(e)] *)
Definition str_exn (e : exn) : string := exn_msg e.

Definition IndexError (m : string) : exn := Exn "IndexError" m.
Definition KeyError (m : string) : exn := Exn "KeyError" m.
Definition ValueError (m : string) : exn := Exn "ValueError" m.
Definition TypeError (m : string) : exn := Exn "TypeError" m.
Definition AttributeError (m : string) : exn := Exn "AttributeError" m.
Definition ZeroDivisionError : exn := Exn "ZeroDivisionError" "division by zero".
Definition StopIteration : exn := Exn "StopIteration" "".

Inductive outcome (A : Type) : Type :=
| Ret (a : A)
| Raise (e : exn).
Arguments Ret {A} a.
Arguments Raise {A} e.

#[export] Instance outcome_ret : MRet outcome := fun A a => Ret a.
#[export] Instance outcome_bind : MBind outcome := fun A B f m =>
  match m with
  | Ret a => f a
  | Raise e => Raise e
  end.

(** The truth value of an optional string: [None] and the empty string are
    false. *)
Definition truthy (s : option string) : bool :=
  match s with
  | Some s => negb (String.eqb s "")
  | None => false
  end.

(** [a / b] on integers (true division), [x < y] and [int(x)] (truncation
    towards zero) on floats. *)
Definition truediv (a b : Z) : outcome Q :=
  if b =? 0 then Raise ZeroDivisionError
  else Ret (inject_Z a / inject_Z b)%Q.

Definition float_lt (x y : Q) : bool := if Qlt_le_dec x y then true else false.

Definition int_of_float (x : Q) : Z := Z.quot (Qnum x) (Z.pos (Qden x)).

(** [str.count] of a one-character string, [str.strip], [file.readline]. *)
Fixpoint count_char (c : ascii) (s : string) : nat :=
  match s with
  | EmptyString => 0%nat
  | String a s' => ((if Ascii.eqb a c then 1 else 0) + count_char c s')%nat
  end.

(** [str.isspace] on the code points below 256. *)
Definition isspace (a : ascii) : bool :=
  let n := nat_of_ascii a in
  ((9 <=? n) && (n <=? 13) || (28 <=? n) && (n <=? 32)
   || (n =? 133) || (n =? 160))%nat.

Fixpoint lstrip (s : string) : string :=
  match s with
  | EmptyString => EmptyString
  | String a s' => if isspace a then lstrip s' else s
  end.

Definition strip (s : string) : string :=
  String.rev (lstrip (String.rev (lstrip s))).

(** [readline s] is the first line of [s] with its newline, and the rest. *)
Fixpoint readline (s : string) : string * string :=
  match s with
  | EmptyString => (EmptyString, EmptyString)
  | String a s' =>
      if Ascii.eqb a "010"%char then (String a EmptyString, s')
      else let '(l, r) := readline s' in (String a l, r)
  end.

(** [max(xs, key=f)] on float keys: the running best is replaced only by an
    element whose key is strictly greater, so the first maximum wins. *)
Fixpoint max_by_from {A : Type} (key : A -> Q) (best : A) (xs : list A) : A :=
  match xs with
  | [] => best
  | x :: xs' =>
      if float_lt (key best) (key x) then max_by_from key x xs'
      else max_by_from key best xs'
  end.

Definition max_by {A : Type} (key : A -> Q) (xs : list A) : outcome A :=
  match xs with
  | [] => Raise (ValueError "max() arg is an empty sequence")
  | x :: xs' => Ret (max_by_from key x xs')
  end.

End Py.
Import Py.

(** ** Cells, series and frames (the part of pandas the engine uses) *)

(** The numbers of the table cells: [parse_num] is [pd.to_numeric] on one
    string ([None] when the string is not a number, or is a NaN), [repr_num]
    is [str] of a number, [nleb] orders numbers for the sorts. *)
Class Numeric : Type := {
  num : Type;
  num_eq_dec :: EqDecision num;
  nzero : num;
  nadd : num -> num -> num;
  nleb : num -> num -> bool;
  parse_num : string -> option num;
  repr_num : num -> string
}.

(** What Python guarantees of [float] and [int]: [str] of a number parses
    back to it, and has no comma. *)
Class ReprLaws (N : Numeric) : Prop := {
  parse_repr : forall x : num, parse_num (repr_num x) = Some x;
  repr_no_comma : forall x : num, count_char ","%char (repr_num x) = 0%nat
}.

(** Exact addition: a monoid.  Integers that stay in range obey it; binary64
    addition is not associative. *)
Class ExactArith (N : Numeric) : Prop := {
  nadd_assoc : forall x y z : num, nadd x (nadd y z) = nadd (nadd x y) z;
  nadd_zero_l : forall x : num, nadd nzero x = x;
  nadd_zero_r : forall x : num, nadd x nzero = x
}.

Section Engine.
Context {N : Numeric}.

Inductive cell : Type :=
| CStr (s : string)
| CNum (x : num)
| CNaN.

#[export] Instance cell_eq_dec : EqDecision cell.
Proof. solve_decision. Defined.

Definition Series : Type := list cell.

Record DataFrame : Type := mkDataFrame {
  columns : list string;
  rows : list (gmap string cell)
}.

(** [str(v)] of a cell, as [Series.astype(str)] applies it. *)
Definition str_cell (c : cell) : string :=
  match c with
  | CStr s => s
  | CNum x => repr_num x
  | CNaN => "nan"
  end.

Definition astype_str (s : Series) : Series := map (fun c => CStr (str_cell c)) s.

Fixpoint remove_char (c : ascii) (s : string) : string :=
  match s with
  | EmptyString => EmptyString
  | String a s' => if Ascii.eqb a c then remove_char c s' else String a (remove_char c s')
  end.

(** [Series.str.replace(',', '')] *)
Definition str_replace_comma (c : cell) : cell :=
  match c with
  | CStr s => CStr (remove_char ","%char s)
  | _ => CNaN
  end.

(** [pd.to_numeric(..., errors='coerce')] on one cell. *)
Definition to_numeric (c : cell) : cell :=
  match c with
  | CStr s => match parse_num s with Some x => CNum x | None => CNaN end
  | CNum x => CNum x
  | CNaN => CNaN
  end.

(** [Series.fillna(0)] on one cell. *)
Definition fillna0 (c : cell) : cell :=
  match c with
  | CNaN => CNum nzero
  | _ => c
  end.

(** The coercion of a sum column,
    [pd.to_numeric(s.astype(str).str.replace(',', ''), errors='coerce').fillna(0)],
    on one cell and on the series. *)
Definition coerce_cell (c : cell) : cell :=
  fillna0 (to_numeric (str_replace_comma (CStr (str_cell c)))).

Definition coerce_numeric (s : Series) : Series :=
  map fillna0 (map to_numeric (map str_replace_comma (astype_str s))).

(** [c in df.columns], [len(df)], [df.empty]. *)
Definition has_column (df : DataFrame) (c : string) : bool :=
  bool_decide (c ∈ columns df).

Definition df_len (df : DataFrame) : nat := length (rows df).

Definition df_empty (df : DataFrame) : bool :=
  match columns df, rows df with
  | [], _ | _, [] => true
  | _, _ => false
  end.

(** A label the row has no cell for reads as NaN. *)
Definition at_col (c : string) (r : gmap string cell) : cell := default CNaN (r !! c).

(** [df[c]] *)
Definition getitem (df : DataFrame) (c : string) : outcome Series :=
  if has_column df c then Ret (map (at_col c) (rows df)) else Raise (KeyError c).

(** [df.get(c, default)] *)
Definition df_get (df : DataFrame) (c : string) (dflt : Series) : Series :=
  if has_column df c then map (at_col c) (rows df) else dflt.

(** [df[c] = s] for a series: the values are aligned on the row index, a row
    the series has no value for gets NaN; a new label is appended. *)
Definition setitem (df : DataFrame) (c : string) (s : Series) : DataFrame :=
  {| columns := if has_column df c then columns df else columns df ++ [c];
     rows := imap (fun i r => <[c := default CNaN (s !! i)]> r) (rows df) |}.

(** [df[c] = v] for a scalar. *)
Definition setitem_scalar (df : DataFrame) (c : string) (v : cell) : DataFrame :=
  {| columns := if has_column df c then columns df else columns df ++ [c];
     rows := map (fun r => <[c := v]> r) (rows df) |}.

(** [df.drop(columns=[c])] *)
Definition drop_column (df : DataFrame) (c : string) : outcome DataFrame :=
  if has_column df c then
    Ret {| columns := filter (fun c' => c' <> c) (columns df);
           rows := map (delete c) (rows df) |}
  else Raise (KeyError c).

(** [df.reindex(columns=cs)]: the listed columns in the listed order, NaN
    where the frame has none. *)
Definition reindex_columns (df : DataFrame) (cs : list string) : DataFrame :=
  {| columns := cs;
     rows := map (fun r => list_to_map (map (fun c => (c, at_col c r)) cs)) (rows df) |}.

(** [df[mask]] for a boolean series [mask] computed from the rows. *)
Definition select_rows (df : DataFrame) (keep : gmap string cell -> bool) : DataFrame :=
  {| columns := columns df; rows := filter (fun r => keep r = true) (rows df) |}.

(** [s.isin(values)] on one cell of a string column. *)
Definition isin (values : list string) (c : cell) : bool :=
  match c with
  | CStr s => bool_decide (s ∈ values)
  | _ => false
  end.

(** [pd.DataFrame()] and [pd.concat(frames, ignore_index=True)]: the union of
    the labels in order of first appearance, the rows in order. *)
Definition empty_frame : DataFrame := {| columns := []; rows := [] |}.

Definition concat (frames : list DataFrame) : DataFrame :=
  {| columns := remove_dups (frames ≫= columns);
     rows := frames ≫= rows |}.

(** The order of the sorts: strings by code point, numbers by [nleb];
    numbers before strings before NaN. *)
Definition cell_leb (a b : cell) : bool :=
  match a, b with
  | CStr s, CStr t => String.leb s t
  | CNum x, CNum y => nleb x y
  | CNum _, _ => true
  | CStr _, CNaN => true
  | CNaN, CNaN => true
  | _, _ => false
  end.

Definition cell_le (a b : cell) : Prop := cell_leb a b = true.

#[export] Instance cell_le_dec : RelDecision cell_le.
Proof. intros a b. unfold cell_le. apply _. Defined.

(** The sum of a group of cells, in row order; NaN is skipped. *)
Definition cell_num (c : cell) : num :=
  match c with
  | CNum x => x
  | _ => nzero
  end.

Definition sum_cells (s : Series) : num := foldl (fun acc c => nadd acc (cell_num c)) nzero s.

(** [df.groupby(g, as_index=False)[cols].sum()]: one row per distinct key
    that is not NaN, the keys sorted; the key column is put in front unless a
    selected column already has its label. *)
Definition group_keys (g : string) (rs : list (gmap string cell)) : list cell :=
  merge_sort cell_le (remove_dups (filter (fun k => k <> CNaN) (map (at_col g) rs))).

Definition group_rows (g : string) (k : cell) (rs : list (gmap string cell)) :
    list (gmap string cell) :=
  filter (fun r => at_col g r = k) rs.

Definition agg_row (g : string) (cols : list string) (rs : list (gmap string cell))
    (k : cell) : gmap string cell :=
  list_to_map (map (fun c => (c, CNum (sum_cells (map (at_col c) (group_rows g k rs))))) cols)
  ∪ {[ g := k ]}.

Definition groupby_sum (df : DataFrame) (g : string) (cols : list string) : outcome DataFrame :=
  if negb (has_column df g) then Raise (KeyError g)
  else if negb (forallb (has_column df) cols) then Raise (KeyError "Columns not found")
  else Ret {| columns := if bool_decide (g ∈ cols) then cols else g :: cols;
              rows := map (agg_row g cols (rows df)) (group_keys g (rows df)) |}.

(** [a + b] on cells and on series aligned on the row index. *)
Definition cell_add (a b : cell) : outcome cell :=
  match a, b with
  | CNum x, CNum y => Ret (CNum (nadd x y))
  | CNaN, _ | _, CNaN => Ret CNaN
  | CStr s, CStr t => Ret (CStr (s +:+ t))
  | _, _ => Raise (TypeError "unsupported operand type(s) for +")
  end.

Fixpoint series_add (a b : Series) : outcome Series :=
  match a, b with
  | [], [] => Ret []
  | x :: a', y :: b' =>
      z ← cell_add x y; r ← series_add a' b'; Ret (z :: r)
  | _ :: a', [] => r ← series_add a' []; Ret (CNaN :: r)
  | [], _ :: b' => Ret (map (fun _ => CNaN) b)
  end.

(** [pd.merge(L, R, on=key, how='outer', suffixes=('', sfx))]: a label of
    both frames other than the key keeps its name on the left and gets the
    suffix on the right; the keys of either frame, sorted; a side without
    the key contributes NaN. *)
Definition merge_rename (L R : DataFrame) (on sfx : string) (c : string) : string :=
  if bool_decide (c ∈ columns L) && negb (String.eqb c on) then c +:+ sfx else c.

Definition right_cols (R : DataFrame) (on : string) : list string :=
  filter (fun c => c <> on) (columns R).

Definition right_part (L R : DataFrame) (on sfx : string) (r : gmap string cell) :
    gmap string cell :=
  list_to_map (map (fun c => (merge_rename L R on sfx c, at_col c r)) (right_cols R on)).

Definition nan_part (cs : list string) : gmap string cell :=
  list_to_map (map (fun c => (c, CNaN)) cs).

Definition merge_rows (L R : DataFrame) (on sfx : string) (k : cell) :
    list (gmap string cell) :=
  let ls := group_rows on k (rows L) in
  let rs := group_rows on k (rows R) in
  match ls, rs with
  | [], _ =>
      map (fun r => <[on := k]> (right_part L R on sfx r
                                 ∪ nan_part (filter (fun c => c <> on) (columns L)))) rs
  | _, [] =>
      map (fun l => l ∪ nan_part (map (merge_rename L R on sfx) (right_cols R on))) ls
  | _, _ =>
      l ← ls; r ← rs; [l ∪ right_part L R on sfx r]
  end.

Definition merge_outer (L R : DataFrame) (on sfx : string) : outcome DataFrame :=
  if negb (has_column L on && has_column R on) then Raise (KeyError on)
  else Ret {| columns := columns L ++ map (merge_rename L R on sfx) (right_cols R on);
              rows := merge_sort cell_le
                        (remove_dups (map (at_col on) (rows L) ++ map (at_col on) (rows R)))
                      ≫= merge_rows L R on sfx |}.

(** [df.sort_values(by=c, ascending=False)]: the rows by decreasing cell,
    and the rows without a value after them ([na_position='last']). *)
Definition row_ge (c : string) (r1 r2 : gmap string cell) : Prop :=
  cell_le (at_col c r2) (at_col c r1).

#[export] Instance row_ge_dec (c : string) : RelDecision (row_ge c).
Proof. intros r1 r2. unfold row_ge. apply _. Defined.

Definition sort_values_desc (df : DataFrame) (c : string) : DataFrame :=
  {| columns := columns df;
     rows := merge_sort (row_ge c) (filter (fun r => at_col c r <> CNaN) (rows df))
             ++ filter (fun r => ~ at_col c r <> CNaN) (rows df) |}.

End Engine.

(** ** The world outside the engine *)

Section Program.
Context {N : Numeric}.

(** What an operation leaves behind: the percentages handed to the progress
    callback (oldest first; the status text is not recorded), the lines
    printed, and the files written. *)
Inductive csv_line : Type :=
| HeaderLine (labels : list string)
| DataLine (cells : list cell).

Inductive out_file : Type :=
| CsvFile (lines : list csv_line)
| ExcelFile (df : DataFrame).

Record world : Type := mkWorld {
  progress : list Z;
  stdout : list string;
  files : gmap string out_file
}.

Definition M (A : Type) : Type := world -> outcome A * world.

#[export] Instance M_ret : MRet M := fun A a w => (Ret a, w).
#[export] Instance M_bind : MBind M := fun A B f m w =>
  match m w with
  | (Ret a, w') => f a w'
  | (Raise e, w') => (Raise e, w')
  end.

Definition lift {A : Type} (o : outcome A) : M A := fun w => (o, w).

Definition raise {A : Type} (e : exn) : M A := fun w => (Raise e, w).

(** [try: body except Exception as e: handler(e)] *)
Definition try_except {A : Type} (body : M A) (handler : exn -> M A) : M A := fun w =>
  match body w with
  | (Ret a, w') => (Ret a, w')
  | (Raise e, w') => handler e w'
  end.

Definition print (line : string) : M unit := fun w =>
  (Ret tt, {| progress := progress w; stdout := stdout w ++ [line]; files := files w |}).

(** [if progress_callback: progress_callback(p, text)]; [cb] tells whether a
    callback was passed. *)
Definition report (cb : bool) (p : Z) : M unit := fun w =>
  if cb then (Ret tt, {| progress := progress w ++ [p]; stdout := stdout w; files := files w |})
  else (Ret tt, w).

(** [for x in xs: body(state, x)] with the loop variables threaded as [s]. *)
Fixpoint for_fold {A S : Type} (body : S -> A -> M S) (s : S) (xs : list A) : M S :=
  match xs with
  | [] => mret s
  | x :: xs' => s' ← body s x; for_fold body s' xs'
  end.

(** [enumerate(xs)] *)
Definition enumerate {A : Type} (xs : list A) : list (Z * A) :=
  imap (fun i x => (Z.of_nat i, x)) xs.

(** ** What the engine asks of the file system, chardet and pandas *)

(** The dictionary [chardet.detect] returns: a key may be missing, and its
    value may be [None]. *)
Record chardet_result : Type := {
  cd_encoding : option (option string);
  cd_confidence : option (option Q)
}.

(** A chunk iterator: the chunks it yields, then the end of the iteration or
    the exception raised instead of the next chunk. *)
Record TextFileReader : Type := {
  tfr_chunks : list DataFrame;
  tfr_error : option exn
}.

Record Env : Type := {
  (** [open(path, 'rb').read()] *)
  open_rb : string -> outcome (list Byte.byte);
  (** [chardet.detect(raw)] *)
  chardet_detect : list Byte.byte -> outcome chardet_result;
  (** [open(path, 'r', encoding=enc, errors='ignore').read()] *)
  open_text : string -> option string -> outcome string;
  (** [pd.read_csv(path, encoding=enc, sep=delim, engine='python', on_bad_lines='skip')] *)
  pd_read_csv : string -> string -> string -> outcome DataFrame;
  (** the same call with [chunksize=k] *)
  pd_read_csv_chunked : string -> string -> string -> Z -> outcome TextFileReader;
  (** [pd.read_excel(path)] *)
  pd_read_excel : string -> outcome DataFrame;
  (** [os.path.getsize(path)] *)
  getsize : string -> outcome Z
}.

(** [next(reader)] *)
Definition tfr_next (r : TextFileReader) : outcome DataFrame :=
  match tfr_chunks r with
  | c :: _ => Ret c
  | [] => Raise (default StopIteration (tfr_error r))
  end.

(** [for ... in reader: body]: the body runs on every chunk, then the
    iterator's own exception, if it has one, is raised. *)
Definition for_reader {S : Type} (body : S -> DataFrame -> M S) (s : S)
    (r : TextFileReader) : M S :=
  s' ← for_fold body s (tfr_chunks r);
  match tfr_error r with
  | Some e => raise e
  | None => mret s'
  end.

Variable env : Env.

(** ** FileProcessor *)

(** 0.7 as Python reads it: the nearest binary64 value,
    3152519739159347 / 2^52. *)
Definition confidence_threshold : Q := 3152519739159347 # 4503599627370496.

Definition detect_encoding (file_path : string) : M (option string) :=
  try_except
    (raw ← lift (open_rb env file_path);
     let raw_data := take (Z.to_nat 50000) raw in
     result ← lift (chardet_detect env raw_data);
     let encoding := default (Some "utf-8") (cd_encoding result) in
     confidence ← lift (match default (Some 0%Q) (cd_confidence result) with
                         | Some c => Ret c
                         | None => Raise (TypeError "'<' not supported between instances of 'NoneType' and 'float'")
                         end);
     if float_lt confidence confidence_threshold then mret (Some "gbk")
     else mret encoding)
    (fun e => _ ← print ("编码检测失败: " +:+ str_exn e); mret (Some "gbk")).

Definition delimiter_candidates : list ascii := [","%char; ";"%char; "009"%char; "|"%char].

(** [(count1 + count2) / 2] *)
Definition delimiter_average (first_line second_line : string) (delim : ascii) : Q :=
  let count1 := count_char delim first_line in
  let count2 := if String.eqb second_line "" then 0%nat else count_char delim second_line in
  (inject_Z (Z.of_nat (count1 + count2)) / 2)%Q.

Definition detect_delimiter (file_path : string) (encoding : option string) : M string :=
  try_except
    (text ← lift (open_text env file_path encoding);
     let '(l1, rest) := readline text in
     let first_line := strip l1 in
     let second_line := strip (fst (readline rest)) in
     let delimiter_counts := delimiter_average first_line second_line in
     best_delimiter ← lift (max_by delimiter_counts delimiter_candidates);
     if float_lt 0%Q (delimiter_counts best_delimiter)
     then mret (String best_delimiter EmptyString)
     else mret ",")
    (fun e => _ ← print ("分隔符检测失败: " +:+ str_exn e); mret ",").

(** What [read_csv_robust] hands back: a frame, or a chunk iterator. *)
Inductive table : Type :=
| Whole (df : DataFrame)
| Chunked (reader : TextFileReader).

Definition read_result : Type := (option table * option string * option string)%type.

Definition chunking (chunksize : option Z) : option Z :=
  match chunksize with
  | Some k => if k =? 0 then None else Some k
  | None => None
  end.

(** The body of the [try] inside the two loops: with a chunk size, build the
    iterator, read its first chunk, and build the iterator again. *)
Definition read_attempt (file_path enc delim : string) (chunksize : option Z) : outcome table :=
  match chunking chunksize with
  | Some k =>
      chunk_reader ← pd_read_csv_chunked env file_path enc delim k;
      _ ← tfr_next chunk_reader;
      chunk_reader ← pd_read_csv_chunked env file_path enc delim k;
      Ret (Chunked chunk_reader)
  | None =>
      df ← pd_read_csv env file_path enc delim;
      Ret (Whole df)
  end.

(** The last attempt, which does not read a first chunk. *)
Definition read_last_resort (file_path : string) (chunksize : option Z) : outcome table :=
  match chunking chunksize with
  | Some k => r ← pd_read_csv_chunked env file_path "utf-8" "," k; Ret (Chunked r)
  | None => df ← pd_read_csv env file_path "utf-8" ","; Ret (Whole df)
  end.

Definition hint_candidates (hint : option string) (defaults : list string) : list string :=
  match hint with
  | Some h => if truthy hint && negb (String.eqb h "auto") then [h] else defaults
  | None => defaults
  end.

Definition default_encodings : list string := ["utf-8-sig"; "gbk"; "gb2312"; "utf-8"; "latin1"].
Definition default_delimiters : list string := [","; ";"; String "009"%char EmptyString; "|"; " "].

(** [for delim in delimiters: try: ... return ... except Exception: continue] *)
Fixpoint try_delimiters (file_path enc : string) (chunksize : option Z)
    (delimiters : list string) : option read_result :=
  match delimiters with
  | [] => None
  | delim :: rest =>
      match read_attempt file_path enc delim chunksize with
      | Ret t => Some (Some t, Some enc, Some delim)
      | Raise _ => try_delimiters file_path enc chunksize rest
      end
  end.

(** [for enc in encodings: for delim in delimiters: ...] *)
Fixpoint try_encodings (file_path : string) (chunksize : option Z)
    (encodings delimiters : list string) : option read_result :=
  match encodings with
  | [] => None
  | enc :: rest =>
      match try_delimiters file_path enc chunksize delimiters with
      | Some r => Some r
      | None => try_encodings file_path chunksize rest delimiters
      end
  end.

Definition read_csv_robust (file_path : string) (encoding delimiter : option string)
    (chunksize : option Z) : M read_result :=
  let encodings := hint_candidates encoding default_encodings in
  let delimiters := hint_candidates delimiter default_delimiters in
  match try_encodings file_path chunksize encodings delimiters with
  | Some r => mret r
  | None =>
      try_except
        (t ← lift (read_last_resort file_path chunksize);
         mret (Some t, Some "utf-8", Some ","))
        (fun e => _ ← print ("最终读取CSV失败: " +:+ str_exn e); mret (None, None, None))
  end.

Definition get_file_size (file_path : string) : M Q :=
  try_except
    (size_bytes ← lift (getsize env file_path);
     lift (truediv size_bytes (1024 * 1024)))
    (fun _ => mret 0%Q).

(** ** DataMerger *)

Definition is_auto (hint : option string) : bool := bool_decide (hint = Some "auto").

Definition _detect_file_params (file_path : string) (encoding delimiter : option string) :
    M (option string * option string) :=
  encoding ← (if is_auto encoding then detect_encoding file_path else mret encoding);
  delimiter ← (if is_auto delimiter
               then d ← detect_delimiter file_path encoding; mret (Some d)
               else mret delimiter);
  mret (encoding, delimiter).

(** A caller that was handed a chunk iterator where it uses a frame (or a
    frame where it iterates over chunks) fails on the first attribute it
    reads. *)
Definition as_frame (t : table) : outcome DataFrame :=
  match t with
  | Whole df => Ret df
  | Chunked _ => Raise (AttributeError "'TextFileReader' object has no attribute 'columns'")
  end.

Definition as_reader (t : table) : outcome TextFileReader :=
  match t with
  | Chunked r => Ret r
  | Whole _ => Raise (AttributeError "'str' object has no attribute 'columns'")
  end.

(** [base + int(i / total * width)] *)
Definition scaled_progress (base i total width : Z) : outcome Z :=
  q ← truediv i total;
  Ret (base + int_of_float (q * inject_Z width)%Q).

Definition _collect_all_columns (file_paths : list string) (encoding delimiter : option string)
    (progress_callback : bool) : M (list string) :=
  let total := Z.of_nat (length file_paths) in
  all_columns ← for_fold (fun (all_columns : gset string) '(i, file_path) =>
      _ ← (if progress_callback
           then p ← lift (scaled_progress 10 i total 20); report progress_callback p
           else mret tt);
      '(df_sample, _, _) ← read_csv_robust file_path encoding delimiter None;
      match df_sample with
      | Some t => df ← lift (as_frame t); mret (all_columns ∪ list_to_set (columns df))
      | None => mret all_columns
      end) ∅ (enumerate file_paths);
  mret (merge_sort String.le (elements all_columns)).

(** [df.to_csv(path, mode='w' or 'a', header=..., index=False)] *)
Definition csv_lines (df : DataFrame) (header : bool) : list csv_line :=
  (if header then [HeaderLine (columns df)] else [])
  ++ map (fun r => DataLine (map (fun c => at_col c r) (columns df))) (rows df).

Definition to_csv (path : string) (df : DataFrame) (truncate header : bool) : M unit := fun w =>
  let old := match files w !! path with
             | Some (CsvFile ls) => if truncate then [] else ls
             | _ => []
             end in
  (Ret tt, {| progress := progress w; stdout := stdout w;
              files := <[path := CsvFile (old ++ csv_lines df header)]> (files w) |}).

Definition fill_missing (chunk : DataFrame) (all_columns : list string) : DataFrame :=
  foldl (fun chunk col =>
           if has_column chunk col then chunk else setitem_scalar chunk col (CStr ""))
        chunk all_columns.

Definition _process_chunk (chunk : DataFrame) (all_columns : list string) (output_path : string)
    (write_header : bool) : M unit :=
  let chunk := fill_missing chunk all_columns in
  let chunk := reindex_columns chunk all_columns in
  to_csv output_path chunk write_header write_header.

Definition _do_merge (file_paths : list string) (output_path : string)
    (all_columns : list string) (encoding delimiter : option string)
    (use_chunking : bool) (chunk_size : Z) (progress_callback : bool) : M unit :=
  let total_files := Z.of_nat (length file_paths) in
  _ ← for_fold (fun (first_file_flag : bool) '(file_idx, file_path) =>
      base_progress ← lift (scaled_progress 30 file_idx total_files 60);
      _ ← report progress_callback base_progress;
      if use_chunking && negb (chunk_size =? 0) then
        '(chunks, _, _) ← read_csv_robust file_path encoding delimiter (Some chunk_size);
        match chunks with
        | None => mret first_file_flag
        | Some t =>
            reader ← lift (as_reader t);
            '(flag, _) ← for_reader (fun '(first_file_flag, chunk_idx) chunk =>
                _ ← _process_chunk chunk all_columns output_path first_file_flag;
                _ ← report progress_callback (Z.min 90 (base_progress + (chunk_idx + 1) * 5));
                mret (false, chunk_idx + 1)) (first_file_flag, 0) reader;
            mret flag
        end
      else
        '(df, _, _) ← read_csv_robust file_path encoding delimiter None;
        match df with
        | Some t =>
            df ← lift (as_frame t);
            _ ← _process_chunk df all_columns output_path first_file_flag;
            mret false
        | None => mret first_file_flag
        end) true (enumerate file_paths);
  report progress_callback 95.

Definition merge_files (file_paths : list string) (output_path : string)
    (encoding delimiter : option string) (use_chunking : bool) (chunk_size : Z)
    (progress_callback : bool) : M (bool * string) :=
  try_except
    (let total_files := length file_paths in
     _ ← report progress_callback 5;
     first_file ← lift (match file_paths with
                        | f :: _ => Ret f
                        | [] => Raise (IndexError "list index out of range")
                        end);
     '(used_encoding, used_delimiter) ← _detect_file_params first_file encoding delimiter;
     _ ← report progress_callback 10;
     all_columns ← _collect_all_columns file_paths used_encoding used_delimiter
                     progress_callback;
     match all_columns with
     | [] => mret (false, "无法解析文件列信息")
     | _ =>
         _ ← report progress_callback 30;
         _ ← _do_merge file_paths output_path all_columns used_encoding used_delimiter
               use_chunking chunk_size progress_callback;
         mret (true, "合并完成！共 " +:+ pretty total_files +:+ " 个文件，保存至: " +:+ output_path)
     end)
    (fun e => mret (false, "合并失败: " +:+ str_exn e)).

(** ** DataSummarizer *)

(** The loop over the sum columns, which the two modes share but for the
    text of the warning: a column the block has is coerced to numbers, a
    column it lacks is added as zeros. *)
Definition coerce_sum_columns (where_ : string) (df : DataFrame) (sum_cols : list string) :
    M DataFrame :=
  for_fold (fun df col =>
      if has_column df col then
        s ← lift (getitem df col);
        mret (setitem df col (coerce_numeric s))
      else
        _ ← print ("警告：求和列 '" +:+ col +:+ "' 不存在于" +:+ where_ +:+ "中，将被忽略。");
        mret (setitem_scalar df col (CNum nzero))) df sum_cols.

(** A block, once its grouping column is known to be there: the key as
    strings, then the sum columns as numbers. *)
Definition summarize_block (where_ : string) (df : DataFrame) (group_col : string)
    (sum_cols : list string) : M DataFrame :=
  s ← lift (getitem df group_col);
  let df := setitem df group_col (astype_str s) in
  coerce_sum_columns where_ df sum_cols.

Definition _process_entire_file (file_path group_col : string) (sum_cols : list string)
    (encoding delimiter : option string) (progress_callback : bool) : M (option DataFrame) :=
  _ ← report progress_callback 30;
  '(df, _, _) ← read_csv_robust file_path encoding delimiter None;
  match df with
  | None => mret None
  | Some t =>
      df ← lift (as_frame t);
      _ ← report progress_callback 60;
      if negb (has_column df group_col)
      then raise (ValueError ("分组列 '" +:+ group_col +:+ "' 不存在于文件中。"))
      else
        df ← summarize_block "文件" df group_col sum_cols;
        _ ← report progress_callback 80;
        r ← lift (groupby_sum df group_col sum_cols);
        mret (Some r)
  end.

Fixpoint fold_outcome {A S : Type} (f : S -> A -> outcome S) (s : S) (xs : list A) : outcome S :=
  match xs with
  | [] => Ret s
  | x :: xs' => s' ← f s x; fold_outcome f s' xs'
  end.

(** One turn of the loop over [sum_cols] after the outer merge. *)
Definition add_new_column (result : DataFrame) (col : string) : outcome DataFrame :=
  old ← getitem result col;
  let new := df_get result (col +:+ "_new") [CNum nzero] in
  total ← series_add (map fillna0 old) (map fillna0 new);
  let result := setitem result col total in
  if has_column result (col +:+ "_new") then drop_column result (col +:+ "_new")
  else Ret result.

Definition combine_results (result chunk_result : DataFrame) (group_col : string)
    (sum_cols : list string) : outcome DataFrame :=
  merged ← merge_outer result chunk_result group_col "_new";
  fold_outcome add_new_column merged sum_cols.

Definition _process_in_chunks (file_path group_col : string) (sum_cols : list string)
    (encoding delimiter : option string) (chunk_size : Z) (progress_callback : bool) :
    M (option DataFrame) :=
  _ ← report progress_callback 10;
  '(chunks, _, _) ← read_csv_robust file_path encoding delimiter (Some chunk_size);
  match chunks with
  | None => mret None
  | Some t =>
      reader ← lift (as_reader t);
      '(result, _, _) ← for_reader (fun '(result, processed_rows, chunk_count) chunk =>
          if negb (has_column chunk group_col)
          then raise (ValueError ("分组列 '" +:+ group_col +:+ "' 不存在于当前数据块中。"))
          else
            prepared ← summarize_block "当前数据块" chunk group_col sum_cols;
            chunk_result ← lift (groupby_sum prepared group_col sum_cols);
            result ← lift (match result with
                           | None => Ret chunk_result
                           | Some result =>
                               combine_results result chunk_result group_col sum_cols
                           end);
            let processed_rows := (processed_rows + length (rows chunk))%nat in
            let chunk_count := chunk_count + 1 in
            _ ← report progress_callback (Z.min 90 (10 + chunk_count * 5));
            mret (Some result, processed_rows, chunk_count))
        (None, 0%nat, 0) reader;
      mret result
  end.

(** [df.to_excel(path, index=False)] *)
Definition to_excel (path : string) (df : DataFrame) : M unit := fun w =>
  (Ret tt, {| progress := progress w; stdout := stdout w;
              files := <[path := ExcelFile df]> (files w) |}).

Definition summarize (file_path group_col : string) (sum_cols : list string)
    (output_path : string) (encoding delimiter : option string) (use_chunking : bool)
    (chunk_size : Z) (descending : bool) (progress_callback : bool) : M (bool * string) :=
  try_except
    (match sum_cols with
     | [] => mret (false, "请选择至少一个求和列")
     | first_sum_col :: _ =>
         file_size ← get_file_size file_path;
         _ ← report progress_callback 5;
         result ← (if use_chunking && negb (chunk_size =? 0)
                   then _process_in_chunks file_path group_col sum_cols encoding delimiter
                          chunk_size progress_callback
                   else _process_entire_file file_path group_col sum_cols encoding delimiter
                          progress_callback);
         match result with
         | None => mret (false, "未找到有效数据或汇总结果为空")
         | Some result =>
             if df_empty result then mret (false, "未找到有效数据或汇总结果为空")
             else
               result ← (if descending && has_column result first_sum_col
                         then _ ← report progress_callback 96;
                              mret (sort_values_desc result first_sum_col)
                         else mret result);
               _ ← to_excel output_path result;
               mret (true, "汇总完成！共 " +:+ pretty (df_len result)
                           +:+ " 个分组，保存至: " +:+ output_path)
         end
     end)
    (fun e => mret (false, "汇总失败: " +:+ str_exn e)).

(** ** DataFilter *)

(** [df[c] = df[c].astype(str)] then [df[df[c].isin(values)]] *)
Definition filter_block (df : DataFrame) (filter_col : string) (filter_values : list string) :
    outcome DataFrame :=
  s ← getitem df filter_col;
  let df := setitem df filter_col (astype_str s) in
  Ret (select_rows df (fun r => isin filter_values (at_col filter_col r))).

Definition _filter_entire_file (data_file filter_col : string) (filter_values : list string)
    (encoding delimiter : option string) (progress_callback : bool) : M (option DataFrame) :=
  _ ← report progress_callback 40;
  '(df, _, _) ← read_csv_robust data_file encoding delimiter None;
  match df with
  | None => mret None
  | Some t =>
      df ← lift (as_frame t);
      if negb (has_column df filter_col)
      then raise (ValueError ("筛选列 '" +:+ filter_col +:+ "' 不存在于数据文件中。"))
      else
        _ ← report progress_callback 70;
        r ← lift (filter_block df filter_col filter_values);
        mret (Some r)
  end.

Definition _filter_in_chunks (data_file filter_col : string) (filter_values : list string)
    (encoding delimiter : option string) (progress_callback : bool) : M (option DataFrame) :=
  let chunk_size := 10000 in
  '(chunks, _, _) ← read_csv_robust data_file encoding delimiter (Some chunk_size);
  match chunks with
  | None => mret None
  | Some t =>
      reader ← lift (as_reader t);
      '(filtered_chunks, _, _, _) ←
        for_reader (fun '(filtered_chunks, processed_rows, matched_rows, chunk_count) chunk =>
          if negb (has_column chunk filter_col)
          then raise (ValueError ("筛选列 '" +:+ filter_col +:+ "' 不存在于当前数据块中。"))
          else
            chunk_filtered ← lift (filter_block chunk filter_col filter_values);
            let '(filtered_chunks, matched_rows) :=
              if negb (df_empty chunk_filtered)
              then (filtered_chunks ++ [chunk_filtered],
                    (matched_rows + df_len chunk_filtered)%nat)
              else (filtered_chunks, matched_rows) in
            let processed_rows := (processed_rows + df_len chunk)%nat in
            let chunk_count := chunk_count + 1 in
            _ ← report progress_callback (Z.min 90 (30 + chunk_count * 3));
            mret (filtered_chunks, processed_rows, matched_rows, chunk_count))
        ([], 0%nat, 0%nat, 0) reader;
      _ ← report progress_callback 95;
      mret (Some (match filtered_chunks with
                  | [] => empty_frame
                  | _ => concat filtered_chunks
                  end))
  end.

(** [filter_df.iloc[:, 0].dropna().astype(str).tolist()] *)
Definition first_column_values (filter_df : DataFrame) : outcome (list string) :=
  match columns filter_df with
  | [] => Raise (IndexError "single positional indexer is out-of-bounds")
  | c :: _ =>
      Ret (map str_cell (filter (fun v => v <> CNaN) (map (at_col c) (rows filter_df))))
  end.

Definition filter_data (data_file filter_file filter_col output_path : string)
    (encoding delimiter : option string) (use_chunking : bool) (progress_callback : bool) :
    M (bool * string) :=
  try_except
    (file_size ← get_file_size data_file;
     _ ← report progress_callback 5;
     _ ← report progress_callback 20;
     filter_df ← lift (pd_read_excel env filter_file);
     filter_values ← lift (first_column_values filter_df);
     match filter_values with
     | [] => mret (false, "未找到有效筛选条件")
     | _ =>
         _ ← report progress_callback 30;
         filtered_data ← (if use_chunking
                          then _filter_in_chunks data_file filter_col filter_values
                                 encoding delimiter progress_callback
                          else _filter_entire_file data_file filter_col filter_values
                                 encoding delimiter progress_callback);
         match filtered_data with
         | None => mret (false, "未找到匹配的数据")
         | Some filtered_data =>
             if df_empty filtered_data then mret (false, "未找到匹配的数据")
             else
               _ ← to_excel output_path filtered_data;
               mret (true, "筛选完成！找到 " +:+ pretty (df_len filtered_data)
                           +:+ " 条匹配记录，保存至: " +:+ output_path)
         end
     end)
    (fun e => mret (false, "筛选失败: " +:+ str_exn e)).

End Program.

(** ** Readers, slices and group totals *)

Section Readings.
Context {N : Numeric}.

(** The call [read_csv_robust(path, encoding, delimiter, chunksize)] hands
    back the table [t] (and prints nothing). *)
Definition reads (env : Env) (file_path : string) (encoding delimiter : option string)
    (chunksize : option Z) (t : table) : Prop :=
  forall w, exists e d,
    read_csv_robust env file_path encoding delimiter chunksize w = (Ret (Some t, e, d), w).

(** The chunks are consecutive slices of the rows of [df], under its labels. *)
Definition slices_of (df : DataFrame) (chunks : list DataFrame) : Prop :=
  Forall (fun c => columns c = columns df) chunks /\ chunks ≫= rows = rows df.

(** The pairs (group key, totals of the sum columns) of a result, in row
    order; no result, no pairs. *)
Definition group_totals (group_col : string) (sum_cols : list string)
    (result : option DataFrame) : list (cell * list cell) :=
  match result with
  | Some df => map (fun r => (at_col group_col r, map (fun c => at_col c r) sum_cols)) (rows df)
  | None => []
  end.

(** The pairs of [(encoding, delimiter)] in the order of the two loops. *)
Definition candidate_pairs (encodings delimiters : list string) : list (string * string) :=
  e ← encodings; (fun d => (e, d)) <$> delimiters.

(** A hint that is [None], empty or ["auto"]. *)
Definition unspecified (hint : option string) : Prop :=
  hint = None \/ hint = Some "" \/ hint = Some "auto".

(** [k] rows at a time. *)
Fixpoint chunk_list {A : Type} (fuel k : nat) (l : list A) : list (list A) :=
  match fuel, l with
  | _, [] => []
  | O, _ => []
  | S fuel', _ => take k l :: chunk_list fuel' k (drop k l)
  end.

Definition chunks_of (k : nat) (df : DataFrame) : list DataFrame :=
  map (mkDataFrame (columns df)) (chunk_list (length (rows df)) k (rows df)).

End Readings.

(** ** Integers as cell numbers, and sample files *)

Definition parse_Z (s : string) : option Z := Z.of_int <$> NilZero.int_of_string s.
Definition repr_Z (z : Z) : string := NilZero.string_of_int (Z.to_int z).

Definition Z_numeric : Numeric :=
  {| num := Z; nzero := 0; nadd := Z.add; nleb := Z.leb;
     parse_num := parse_Z; repr_num := repr_Z |}.

Module Samples.

Definition NZ : Numeric := Z_numeric.

Definition w0 : @world NZ := {| progress := []; stdout := []; files := ∅ |}.

Definition not_found {A : Type} (path : string) : outcome A :=
  Raise (Exn "FileNotFoundError" path).

(** A directory given as a list of parsed files: every encoding and
    delimiter parses a listed file to its frame, chunked reading slices it,
    and nothing else exists. *)
Definition lookup_file (dir : list (string * @DataFrame NZ)) (path : string) :
    outcome (@DataFrame NZ) :=
  match list_find (fun p => p.1 = path) dir with
  | Some (_, (_, df)) => Ret df
  | None => not_found path
  end.

Definition directory (dir : list (string * @DataFrame NZ)) : @Env NZ :=
  {| open_rb := fun path => _ ← lookup_file dir path; Ret [];
     chardet_detect := fun _ =>
       Ret {| cd_encoding := Some (Some "utf-8"); cd_confidence := Some (Some 1%Q) |};
     open_text := fun path _ => _ ← lookup_file dir path; Ret "";
     pd_read_csv := fun path _ _ => lookup_file dir path;
     pd_read_csv_chunked := fun path _ _ k =>
       df ← lookup_file dir path;
       Ret {| tfr_chunks := chunks_of (Z.to_nat k) df; tfr_error := None |};
     pd_read_excel := lookup_file dir;
     getsize := fun path => _ ← lookup_file dir path; Ret 0 |}.

Definition id_rows (ids : list Z) : list (gmap string (@cell NZ)) :=
  map (fun i => {[ "id" := CNum (i : @num NZ) ]}) ids.

Definition seven_rows : @DataFrame NZ :=
  {| columns := ["id"]; rows := id_rows [1; 2; 3; 4; 5; 6; 7] |}.

Definition one_row : @DataFrame NZ := {| columns := ["id"]; rows := id_rows [8] |}.

Definition two_files : @Env NZ := directory [("a.csv", seven_rows); ("b.csv", one_row)].

Definition two_ids : @DataFrame NZ := {| columns := ["id"]; rows := id_rows [1; 2] |}.

Definition ids_dir : @Env NZ := directory [("ids.csv", two_ids)].

(** A file of sales: a key and an amount per row. *)
Definition sale (k : string) (v : Z) : gmap string (@cell NZ) :=
  {[ "g" := CStr k; "v" := CNum (v : @num NZ) ]}.

Definition sales : @DataFrame NZ :=
  {| columns := ["g"; "v"]; rows := [sale "a" 1; sale "b" 2; sale "a" 3] |}.

(** A file with a header and no row. *)
Definition header_only : @DataFrame NZ := {| columns := ["g"]; rows := [] |}.

Definition sales_dir : @Env NZ :=
  directory [("sales.csv", sales); ("ids.csv", two_ids); ("header.csv", header_only)].

(** A file that parses under gbk with a semicolon and under nothing else,
    and a file that parses under utf-8 with a comma only. *)
Definition picky : @Env NZ :=
  {| open_rb := fun path => not_found path;
     chardet_detect := fun _ => Ret {| cd_encoding := None; cd_confidence := None |};
     open_text := fun path _ => not_found path;
     pd_read_csv := fun path enc delim =>
       if String.eqb path "gbk.csv" && String.eqb enc "gbk" && String.eqb delim ";"
       then Ret one_row
       else if String.eqb path "utf8.csv" && String.eqb enc "utf-8" && String.eqb delim ","
       then Ret one_row
       else Raise (ValueError "could not parse");
     pd_read_csv_chunked := fun path _ _ _ => not_found path;
     pd_read_excel := fun path => not_found path;
     getsize := fun path => not_found path |}.

End Samples.

(** * Properties *)

(** ** The read cascade *)

Section ReadCascade.
Context {N : Numeric} (env : Env).
Variables (file_path : string) (chunksize : option Z).

Definition attempt_fails (p : string * string) : Prop :=
  exists x, read_attempt env file_path p.1 p.2 chunksize = Raise x.

Lemma try_delimiters_spec enc delimiters :
  match try_delimiters env file_path enc chunksize delimiters with
  | Some r => exists pre d post t,
      delimiters = pre ++ d :: post /\ Forall (fun d' => attempt_fails (enc, d')) pre /\
      read_attempt env file_path enc d chunksize = Ret t /\ r = (Some t, Some enc, Some d)
  | None => Forall (fun d' => attempt_fails (enc, d')) delimiters
  end.
Proof.
  induction delimiters as [|d ds IH]; simpl; [constructor|].
  destruct (read_attempt env file_path enc d chunksize) as [t|x] eqn:E.
  - exists [], d, ds, t. repeat split; auto.
  - destruct (try_delimiters env file_path enc chunksize ds) as [r|].
    + destruct IH as (pre & d' & post & t & -> & Hpre & Ht & ->).
      exists (d :: pre), d', post, t. repeat split; auto.
      constructor; [exists x; exact E | exact Hpre].
    + constructor; [exists x; exact E | exact IH].
Qed.

Lemma try_encodings_spec encodings delimiters :
  match try_encodings env file_path chunksize encodings delimiters with
  | Some r => exists pre e d post t,
      candidate_pairs encodings delimiters = pre ++ (e, d) :: post /\
      Forall attempt_fails pre /\
      read_attempt env file_path e d chunksize = Ret t /\ r = (Some t, Some e, Some d)
  | None => Forall attempt_fails (candidate_pairs encodings delimiters)
  end.
Proof.
  induction encodings as [|enc encs IH]; simpl; [constructor|].
  pose proof (try_delimiters_spec enc delimiters) as Hd.
  destruct (try_delimiters env file_path enc chunksize delimiters) as [r|].
  - destruct Hd as (pre & d & post & t & Hds & Hpre & Ht & ->).
    exists ((fun d' => (enc, d')) <$> pre), enc, d,
      (((fun d' => (enc, d')) <$> post) ++ candidate_pairs encs delimiters), t.
    repeat split; auto.
    + unfold candidate_pairs. simpl. rewrite Hds at 1. rewrite fmap_app. simpl.
      rewrite <- app_assoc. reflexivity.
    + apply Forall_fmap. exact Hpre.
  - destruct (try_encodings env file_path chunksize encs delimiters) as [r|].
    + destruct IH as (pre & e & d & post & t & Heq & Hpre & Ht & ->).
      exists (((fun d' => (enc, d')) <$> delimiters) ++ pre), e, d, post, t.
      repeat split; auto.
      * unfold candidate_pairs in *. simpl. rewrite Heq, <- app_assoc. reflexivity.
      * apply Forall_app. split; [apply Forall_fmap; exact Hd | exact Hpre].
    + unfold candidate_pairs. simpl. apply Forall_app.
      split; [apply Forall_fmap; exact Hd | exact IH].
Qed.

(** The first success of a list is unique. *)
Lemma first_success_unique (pairs pre pre' post post' : list (string * string)) p p' t t' :
  pairs = pre ++ p :: post -> pairs = pre' ++ p' :: post' ->
  Forall attempt_fails pre -> Forall attempt_fails pre' ->
  read_attempt env file_path p.1 p.2 chunksize = Ret t ->
  read_attempt env file_path p'.1 p'.2 chunksize = Ret t' ->
  p = p'.
Proof.
  intros -> Heq Hpre Hpre' Ht Ht'. revert pre' Heq Hpre'.
  induction pre as [|q pre IH]; intros [|q' pre'] Heq Hpre'; simpl in Heq.
  - congruence.
  - injection Heq as <- _. apply Forall_cons in Hpre' as [[x Hx] _]. congruence.
  - injection Heq as -> _. apply Forall_cons in Hpre as [[x Hx] _]. congruence.
  - injection Heq as _ Heq. apply Forall_cons in Hpre as [_ Hpre].
    apply Forall_cons in Hpre' as [_ Hpre']. eauto.
Qed.

Lemma hint_candidates_unspecified hint defaults :
  unspecified hint -> hint_candidates hint defaults = defaults.
Proof. intros [-> | [-> | ->]]; reflexivity. Qed.

Lemma hint_candidates_explicit h defaults :
  h <> "" -> h <> "auto" -> hint_candidates (Some h) defaults = [h].
Proof.
  intros H1 H2. unfold hint_candidates, truthy.
  destruct (String.eqb_spec h ""); [contradiction|].
  destruct (String.eqb_spec h "auto"); [contradiction|]. reflexivity.
Qed.

(** [read_csv_robust] returns, whatever the oracles do; it writes no file
    and reports no progress. *)
Lemma read_csv_robust_returns encoding delimiter w :
  exists r out, read_csv_robust env file_path encoding delimiter chunksize w
                = (Ret r, {| progress := progress w; stdout := stdout w ++ out;
                             files := files w |}).
Proof.
  unfold read_csv_robust.
  destruct (try_encodings _ _ _ _ _) as [r|].
  - exists r, []. rewrite app_nil_r. destruct w; reflexivity.
  - unfold try_except, mbind, M_bind, lift.
    destruct (read_last_resort env file_path chunksize) as [t|x]; simpl.
    + eexists _, []. rewrite app_nil_r. destruct w; reflexivity.
    + eexists _, [_]. reflexivity.
Qed.

End ReadCascade.

Section ReadCascadeClaims.
Context {N : Numeric} (env : Env).


(** C9.  With explicit hints (not empty, not ["auto"]) the two loops make
    the one attempt asked for; when it raises and the last-resort parse
    returns, the caller gets utf-8 and a comma back, whatever it asked
    for. *)
Theorem explicit_hints_fall_back file_path e d chunksize w t x :
  e <> "" -> e <> "auto" -> d <> "" -> d <> "auto" ->
  read_attempt env file_path e d chunksize = Raise x ->
  read_last_resort env file_path chunksize = Ret t ->
  read_csv_robust env file_path (Some e) (Some d) chunksize w
  = (Ret (Some t, Some "utf-8", Some ","), w).
Proof.
  intros He1 He2 Hd1 Hd2 Hfail Hlast. unfold read_csv_robust.
  rewrite !hint_candidates_explicit by assumption. simpl. rewrite Hfail.
  unfold try_except, mbind, M_bind, lift. rewrite Hlast. reflexivity.
Qed.

(** C10.  [merge_files] on an empty list of paths returns
    [(False, "合并失败: list index out of range")] and leaves every file as
    it was. *)
Theorem merge_files_empty_list output_path encoding delimiter use_chunking chunk_size
    progress_callback w :
  exists w',
    merge_files env [] output_path encoding delimiter use_chunking chunk_size
      progress_callback w
    = (Ret (false, "合并失败: list index out of range"), w')
    /\ files w' = files w.
Proof.
  unfold merge_files, try_except, mbind, M_bind, report, lift.
  destruct progress_callback; simpl; eexists; split; reflexivity.
Qed.

End ReadCascadeClaims.

(** ** Detection never raises *)

Lemma count_char_rev_app c s acc :
  count_char c (String.rev_app s acc) = (count_char c s + count_char c acc)%nat.
Proof.
  revert acc. induction s as [|a s IH]; intros acc; simpl; [reflexivity|].
  rewrite IH. simpl. lia.
Qed.

Lemma count_char_rev c s : count_char c (String.rev s) = count_char c s.
Proof. unfold String.rev. rewrite count_char_rev_app. simpl. lia. Qed.

Lemma count_char_lstrip c s : (count_char c (lstrip s) <= count_char c s)%nat.
Proof.
  induction s as [|a s IH]; simpl; [lia|].
  destruct (isspace a); simpl; lia.
Qed.

Lemma count_char_strip c s : (count_char c (strip s) <= count_char c s)%nat.
Proof.
  unfold strip. rewrite count_char_rev.
  etransitivity; [apply count_char_lstrip|]. rewrite count_char_rev.
  apply count_char_lstrip.
Qed.

Lemma max_by_from_elem {A : Type} (key : A -> Q) best xs :
  max_by_from key best xs ∈ best :: xs.
Proof.
  revert best. induction xs as [|x xs IH]; intros best; simpl; [left|].
  destruct (float_lt (key best) (key x)).
  - right. apply IH.
  - specialize (IH best). apply elem_of_cons in IH as [-> | IH]; [left|].
    right. right. exact IH.
Qed.

Lemma float_lt_spec x y : float_lt x y = true <-> (x < y)%Q.
Proof.
  unfold float_lt. destruct (Qlt_le_dec x y) as [H|H]; split; auto; try discriminate.
  intros H'. exfalso. exact (Qlt_not_le _ _ H' H).
Qed.

Lemma delimiter_average_zero first_line second_line delim :
  count_char delim first_line = 0%nat -> count_char delim second_line = 0%nat ->
  float_lt 0 (delimiter_average first_line second_line delim) = false.
Proof.
  intros H1 H2. unfold delimiter_average. rewrite H1, H2.
  destruct (String.eqb second_line ""); reflexivity.
Qed.

Section Detection.
Context {N : Numeric} (env : Env).

(** C7.  [detect_encoding], [detect_delimiter] and [read_csv_robust] return
    a value whatever the file system, the detector and the parser do.
    [detect_encoding] answers 'gbk' when opening the file or the detector
    raises, and when the confidence (0 if the detector gives none) is below
    0.7; [detect_delimiter] answers a comma when opening the file raises,
    and when none of the four candidates occurs in the first two lines;
    [read_csv_robust] answers a triple. *)
Theorem detection_never_raises file_path encoding delimiter chunksize w :
  (exists enc w',
     detect_encoding env file_path w = (Ret enc, w') /\
     ((exists x, open_rb env file_path = Raise x) -> enc = Some "gbk") /\
     (forall raw x,
        open_rb env file_path = Ret raw ->
        chardet_detect env (take (Z.to_nat 50000) raw) = Raise x -> enc = Some "gbk") /\
     (forall raw result c,
        open_rb env file_path = Ret raw ->
        chardet_detect env (take (Z.to_nat 50000) raw) = Ret result ->
        default (Some 0%Q) (cd_confidence result) = Some c ->
        (c < confidence_threshold)%Q -> enc = Some "gbk")) /\
  (exists delim w',
     detect_delimiter env file_path encoding w = (Ret delim, w') /\
     ((exists x, open_text env file_path encoding = Raise x) -> delim = ",") /\
     (forall text,
        open_text env file_path encoding = Ret text ->
        (forall c, c ∈ delimiter_candidates ->
           count_char c (readline text).1 = 0%nat /\
           count_char c (readline (readline text).2).1 = 0%nat) ->
        delim = ",")) /\
  (exists (r : read_result) w',
     read_csv_robust env file_path encoding delimiter chunksize w = (Ret r, w')).
Proof.
  split; [|split].
  - unfold detect_encoding, try_except, mbind, M_bind, lift, print.
    destruct (open_rb env file_path) as [raw|x] eqn:Hopen; simpl;
      [|eexists _, _; split; [reflexivity|]; repeat split; intros; reflexivity].
    destruct (chardet_detect env (take (Z.to_nat 50000) raw)) as [result|x] eqn:Hdet;
      simpl; [|eexists _, _; split; [reflexivity|]; repeat split; intros; reflexivity].
    destruct (default (Some 0%Q) (cd_confidence result)) as [c|] eqn:Hc; simpl;
      [|eexists _, _; split; [reflexivity|]; repeat split; intros; reflexivity].
    destruct (float_lt c confidence_threshold) eqn:Hlt;
      [eexists _, _; split; [reflexivity|]; repeat split; intros; reflexivity|].
    eexists _, _. split; [reflexivity|]. repeat split.
    + intros [? [=]].
    + intros ? ? [= <-] Hdet'. congruence.
    + intros raw' result' c' [= <-] Hdet' Hc' Hlt'. rewrite Hdet in Hdet'.
      injection Hdet' as <-. rewrite Hc in Hc'.
      injection Hc' as <-. apply float_lt_spec in Hlt'. congruence.
  - unfold detect_delimiter, try_except, mbind, M_bind, lift, print.
    destruct (open_text env file_path encoding) as [text|x];
      [|eexists _, _; split; [reflexivity|]; split; intros; reflexivity].
    destruct (readline text) as [l1 rest] eqn:Hrl.
    unfold max_by, delimiter_candidates.
    set (avg := delimiter_average (strip l1) (strip (readline rest).1)).
    set (best := max_by_from avg ","%char [";"%char; "009"%char; "|"%char]).
    pose proof (max_by_from_elem avg ","%char [";"%char; "009"%char; "|"%char]) as Hin.
    fold best in Hin.
    destruct (float_lt 0 (avg best)) eqn:Hpos.
    + eexists _, _. split; [reflexivity|]. split; [intros [? [=]]|].
      intros text' [= <-] Hnone. exfalso.
      destruct (Hnone _ Hin) as [H1 H2]. rewrite Hrl in H1, H2. simpl in H1, H2.
      assert (float_lt 0 (avg best) = false) as Hz; [|congruence].
      apply delimiter_average_zero.
      * pose proof (count_char_strip best l1). lia.
      * pose proof (count_char_strip best (readline rest).1). lia.
    + eexists _, _. split; [reflexivity|]. split; auto.
  - destruct (read_csv_robust_returns env file_path chunksize encoding delimiter w)
      as (r & out & ->). eauto.
Qed.

End Detection.

(** ** Numeric coercion *)

Lemma remove_char_absent c s : count_char c s = 0%nat -> remove_char c s = s.
Proof.
  induction s as [|a s IH]; simpl; [reflexivity|].
  destruct (Ascii.eqb a c); [discriminate|]. intros H. rewrite IH; [reflexivity|lia].
Qed.

Section Coercion.
Context {N : Numeric}.

Lemma coerce_numeric_map s : coerce_numeric s = map coerce_cell s.
Proof.
  unfold coerce_numeric, astype_str. rewrite !map_map. reflexivity.
Qed.

Lemma coerce_cell_num c : exists x, coerce_cell c = CNum x.
Proof.
  unfold coerce_cell. simpl.
  destruct (parse_num (remove_char ","%char (str_cell c))); simpl; eauto.
Qed.

(** C8.  Coercing a cell (the string form without its commas, parsed, zero
    when it does not parse) a second time gives the number of the first
    time, on a cell and on a whole column; and a cell whose string form
    without commas does not parse becomes zero. *)
Theorem coercion_idempotent {L : ReprLaws N} (c : cell) (s : Series) :
  coerce_cell (coerce_cell c) = coerce_cell c /\
  coerce_numeric (coerce_numeric s) = coerce_numeric s /\
  (parse_num (remove_char ","%char (str_cell c)) = None -> coerce_cell c = CNum nzero).
Proof.
  assert (forall c', coerce_cell (coerce_cell c') = coerce_cell c') as Hcell.
  { intros c'. destruct (coerce_cell_num c') as [x ->].
    unfold coerce_cell. simpl.
    rewrite (remove_char_absent _ _ (repr_no_comma x)), parse_repr. reflexivity. }
  split; [apply Hcell|]. split.
  - rewrite !coerce_numeric_map, map_map. apply map_ext. intros c'. apply Hcell.
  - intros Hnone. unfold coerce_cell. simpl. rewrite Hnone. reflexivity.
Qed.

End Coercion.

(** The integers obey both sets of laws. *)
Lemma count_comma_uint d : count_char ","%char (NilEmpty.string_of_uint d) = 0%nat.
Proof. induction d; simpl; auto. Qed.

Lemma Z_repr_laws : ReprLaws Z_numeric.
Proof.
  split; simpl.
  - intros x. unfold parse_Z, repr_Z. rewrite NilZero.isi.
    + simpl. f_equal. apply DecimalZ.of_to.
    + destruct x; simpl; try discriminate.
      intros [= H]. exact (DecimalPos.Unsigned.to_uint_nonnil _ H).
    + destruct x; simpl; try discriminate.
      intros [= H]. exact (DecimalPos.Unsigned.to_uint_nonnil _ H).
  - intros x. unfold repr_Z.
    destruct (Z.to_int x) as [d|d]; simpl.
    + destruct d; try reflexivity; apply (count_comma_uint (_ _)).
    + destruct d; try reflexivity; apply (count_comma_uint (_ _)).
Qed.

Lemma Z_exact_arith : ExactArith Z_numeric.
Proof. split; simpl; intros; lia. Qed.

(** ** Loops and frames: general facts *)

Lemma map_is_fmap {A B : Type} (f : A -> B) (l : list A) : map f l = f <$> l.
Proof. induction l as [|x l IH]; simpl; [reflexivity|]. rewrite IH. reflexivity. Qed.

Section Loops.
Context {N : Numeric}.

(** Running a sequence step by step. *)
Lemma M_bind_ret {A B : Type} (m : M A) (k : A -> M B) w a w' :
  m w = (Ret a, w') -> (m ≫= k) w = k a w'.
Proof. intros H. unfold mbind, M_bind. rewrite H. reflexivity. Qed.

Lemma M_bind_raise {A B : Type} (m : M A) (k : A -> M B) w e w' :
  m w = (Raise e, w') -> (m ≫= k) w = (Raise e, w').
Proof. intros H. unfold mbind, M_bind. rewrite H. reflexivity. Qed.

Definition logged (cb : bool) (p : Z) (w : world) : world :=
  if cb then {| progress := progress w ++ [p]; stdout := stdout w; files := files w |}
  else w.

Lemma report_eq cb p w : report cb p w = (Ret tt, logged cb p w).
Proof. unfold report, logged. destruct cb; reflexivity. Qed.

Lemma lift_eq {A : Type} (o : outcome A) w : lift o w = (o, w).
Proof. reflexivity. Qed.

(** A loop whose body keeps an invariant of the loop variables, the world
    and the elements already seen. *)
Lemma for_fold_inv {A S : Type} (body : S -> A -> M S) (Inv : S -> world -> list A -> Prop)
    (xs pre : list A) (s : S) (w : world) :
  Inv s w pre ->
  (forall s pre' x w, x ∈ xs -> Inv s w pre' ->
     exists s' w', body s x w = (Ret s', w') /\ Inv s' w' (pre' ++ [x])) ->
  exists s' w', for_fold body s xs w = (Ret s', w') /\ Inv s' w' (pre ++ xs).
Proof.
  revert pre s w. induction xs as [|x xs IH]; intros pre s w HI Hbody; simpl.
  - exists s, w. rewrite app_nil_r. split; [reflexivity|exact HI].
  - destruct (Hbody s pre x w) as (s1 & w1 & Hx & HI1); [left|exact HI|].
    unfold mbind, M_bind. rewrite Hx.
    destruct (IH (pre ++ [x]) s1 w1 HI1) as (s2 & w2 & Hxs & HI2).
    { intros s' pre' y w' Hy. apply Hbody. right. exact Hy. }
    exists s2, w2. split; [exact Hxs|]. rewrite <- app_assoc in HI2. exact HI2.
Qed.

Lemma has_column_true (df : DataFrame) c : c ∈ columns df -> has_column df c = true.
Proof. intros H. unfold has_column. apply bool_decide_eq_true. exact H. Qed.

Lemma has_column_false (df : DataFrame) c : c ∉ columns df -> has_column df c = false.
Proof. intros H. unfold has_column. apply bool_decide_eq_false. exact H. Qed.

(** Assigning to a column a series computed row by row. *)
Lemma imap_insert_map (c : string) (g : gmap string cell -> cell) (rs : list (gmap string cell)) :
  imap (fun i r => <[c := default CNaN (map g rs !! i)]> r) rs
  = map (fun r => <[c := g r]> r) rs.
Proof.
  rewrite (map_is_fmap g), (map_is_fmap (fun r => <[c := g r]> r)).
  apply list_eq. intros i. rewrite list_lookup_imap, !list_lookup_fmap.
  destruct (rs !! i) as [r|] eqn:Hr; reflexivity.
Qed.

Lemma setitem_rows (df : DataFrame) c (f : cell -> cell) :
  rows (setitem df c (map f (map (at_col c) (rows df))))
  = map (fun r => <[c := f (at_col c r)]> r) (rows df).
Proof.
  unfold setitem. simpl. rewrite map_map.
  apply (imap_insert_map c (fun r => f (at_col c r))).
Qed.

Lemma getitem_present (df : DataFrame) c :
  c ∈ columns df -> getitem df c = Ret (map (at_col c) (rows df)).
Proof. intros H. unfold getitem. rewrite has_column_true by exact H. reflexivity. Qed.

Lemma setitem_columns_present (df : DataFrame) c s :
  c ∈ columns df -> columns (setitem df c s) = columns df.
Proof. intros H. unfold setitem. simpl. rewrite has_column_true; auto. Qed.

Lemma at_col_insert c (v : cell) (r : gmap string cell) : at_col c (<[c := v]> r) = v.
Proof. unfold at_col. rewrite lookup_insert_eq. reflexivity. Qed.

Lemma at_col_insert_ne c c' (v : cell) (r : gmap string cell) :
  c <> c' -> at_col c' (<[c := v]> r) = at_col c' r.
Proof. intros H. unfold at_col. rewrite lookup_insert_ne; auto. Qed.

Lemma bind_rows_app (l1 l2 : list DataFrame) :
  (l1 ++ l2) ≫= rows = (l1 ≫= rows) ++ (l2 ≫= rows).
Proof. apply bind_app. Qed.

End Loops.

(** ** The membership filter *)

Section Filter.
Context {N : Numeric} (env : Env).
Variables (filter_col : string) (filter_values : list string).

(** The row with its filter cell in string form, and the test on it. *)
Definition stringified (r : gmap string cell) : gmap string cell :=
  <[filter_col := CStr (str_cell (at_col filter_col r))]> r.

Definition matches (r : gmap string cell) : Prop :=
  str_cell (at_col filter_col r) ∈ filter_values.

Lemma filter_block_rows (df : DataFrame) :
  filter_col ∈ columns df ->
  filter_block df filter_col filter_values
  = Ret {| columns := columns df;
           rows := map stringified (filter matches (rows df)) |}.
Proof.
  intros Hc. unfold filter_block, getitem. rewrite has_column_true by exact Hc.
  simpl. unfold select_rows. f_equal. rewrite setitem_columns_present by exact Hc.
  f_equal. unfold astype_str. rewrite setitem_rows.
  induction (rows df) as [|r rs IH]; simpl; [reflexivity|].
  rewrite filter_cons. rewrite (filter_cons matches).
  rewrite at_col_insert. simpl.
  destruct (decide (matches r)) as [Hm|Hm].
  - rewrite decide_True.
    + simpl. rewrite IH. reflexivity.
    + apply bool_decide_eq_true. exact Hm.
  - rewrite decide_False.
    + exact IH.
    + intros Hb. apply bool_decide_eq_true in Hb. contradiction.
Qed.


End Filter.

(** ** Grouped sums *)

Lemma string_length_app (s t : string) :
  String.length (s +:+ t) = (String.length s + String.length t)%nat.
Proof. induction s as [|a s IH]; simpl; [reflexivity|]. rewrite IH. reflexivity. Qed.

Lemma append_new_neq (c : string) : c +:+ "_new" <> c.
Proof.
  intros H. apply (f_equal String.length) in H.
  rewrite ?string_length_app in H. simpl in H. lia.
Qed.

Lemma append_new_inj (c c' : string) : c +:+ "_new" = c' +:+ "_new" -> c = c'.
Proof.
  revert c'. induction c as [|a c IH]; intros [|a' c'] H; simpl in H.
  - reflexivity.
  - exfalso. injection H as Ha H. apply (f_equal String.length) in H.
    rewrite ?string_length_app in H. simpl in H. lia.
  - exfalso. injection H as Ha H. apply (f_equal String.length) in H.
    rewrite ?string_length_app in H. simpl in H. lia.
  - injection H as -> H. f_equal. apply IH. exact H.
Qed.

Lemma lookup_sums {N : Numeric} (cs : list string) (f : string -> cell) (c : string) :
  (list_to_map (map (fun c' => (c', f c')) cs) : gmap string cell) !! c
  = if decide (c ∈ cs) then Some (f c) else None.
Proof.
  induction cs as [|c0 cs IH]; simpl.
  - rewrite lookup_empty. destruct (decide (c ∈ [])) as [H|H]; [inversion H|reflexivity].
  - destruct (decide (c0 = c)) as [->|Hne].
    + rewrite lookup_insert_eq. rewrite decide_True; [reflexivity|left].
    + rewrite lookup_insert_ne by exact Hne. rewrite IH.
      destruct (decide (c ∈ cs)) as [Hin|Hnin].
      * rewrite decide_True; [reflexivity|right; exact Hin].
      * rewrite decide_False; [reflexivity|].
        intros Hc. apply elem_of_cons in Hc as [->|Hc]; contradiction.
Qed.

Section Summation.
Context {N : Numeric}.
Variables (g : string) (cols : list string).

(** The total of column [c] over the rows of [R] whose key is [k]. *)
Definition total (R : list (gmap string cell)) (k : cell) (c : string) : num :=
  sum_cells (map (at_col c) (group_rows g k R)).

(** The frame [F] holds the grouped sums of the rows [R]: labels [g] and the
    sum columns, one row per key of [R], and in it the totals and nothing
    else. *)
Definition denotes (F : DataFrame) (R : list (gmap string cell)) : Prop :=
  columns F = g :: cols /\
  NoDup (map (at_col g) (rows F)) /\
  (forall k, k ∈ map (at_col g) (rows F) <-> k ∈ map (at_col g) R) /\
  (forall row, row ∈ rows F ->
     at_col g row <> CNaN /\
     (forall c, c ∈ cols -> row !! c = Some (CNum (total R (at_col g row) c))) /\
     (forall c, c ∉ g :: cols -> row !! c = None)).

Lemma group_keys_elem R k :
  k ∈ group_keys g R <-> k ∈ map (at_col g) R /\ k <> CNaN.
Proof.
  unfold group_keys. rewrite merge_sort_Permutation, elem_of_remove_dups.
  rewrite list_elem_of_filter. tauto.
Qed.

Lemma group_keys_nodup R : NoDup (group_keys g R).
Proof.
  unfold group_keys. rewrite merge_sort_Permutation. apply NoDup_remove_dups.
Qed.

Lemma at_col_agg_row_key R k : g ∉ cols -> at_col g (agg_row g cols R k) = k.
Proof.
  intros Hg. unfold agg_row, at_col.
  rewrite lookup_union_r.
  - rewrite lookup_singleton_eq. reflexivity.
  - rewrite lookup_sums. rewrite decide_False; auto.
Qed.

Lemma map_at_col_agg_rows R ks :
  g ∉ cols -> map (at_col g) (map (agg_row g cols R) ks) = ks.
Proof.
  intros Hg. rewrite map_map. induction ks as [|k ks IH]; simpl; [reflexivity|].
  rewrite at_col_agg_row_key by exact Hg. rewrite IH. reflexivity.
Qed.

(** The grouped sum of a block whose keys are not NaN. *)
Lemma groupby_sum_denotes (df : DataFrame) :
  g ∉ cols -> g ∈ columns df -> (forall c, c ∈ cols -> c ∈ columns df) ->
  (forall r, r ∈ rows df -> at_col g r <> CNaN) ->
  exists F, groupby_sum df g cols = Ret F /\ denotes F (rows df).
Proof.
  intros Hg Hgc Hcs Hkeys. unfold groupby_sum.
  rewrite has_column_true by exact Hgc. simpl.
  assert (forallb (has_column df) cols = true) as ->.
  { apply forallb_forall. intros c Hc. apply has_column_true, Hcs.
    apply list_elem_of_In. exact Hc. }
  simpl. rewrite bool_decide_eq_false_2 by exact Hg.
  eexists. split; [reflexivity|]. unfold denotes. simpl.
  rewrite map_at_col_agg_rows by exact Hg.
  split; [reflexivity|]. split; [apply group_keys_nodup|]. split.
  - intros k. rewrite group_keys_elem. split; [tauto|].
    intros Hk. split; [exact Hk|].
    apply (list_elem_of_fmap (at_col g)) in Hk as (r & -> & Hr). apply Hkeys, Hr.
  - intros row Hrow.
    apply (list_elem_of_fmap (agg_row g cols (rows df))) in Hrow as (k & -> & Hk).
    apply group_keys_elem in Hk as [Hk Hnan].
    rewrite at_col_agg_row_key by exact Hg. split; [exact Hnan|]. split.
    + intros c Hc. unfold agg_row. rewrite lookup_union_l'.
      * rewrite lookup_sums. rewrite decide_True by exact Hc. reflexivity.
      * rewrite lookup_sums. rewrite decide_True by exact Hc. eauto.
    + intros c Hc. unfold agg_row. apply lookup_union_None. split.
      * rewrite lookup_sums. rewrite decide_False; [reflexivity|].
        intros Hin. apply Hc. right. exact Hin.
      * apply lookup_singleton_ne. intros ->. apply Hc. left.
Qed.

End Summation.

Section Combine.
Context {N : Numeric} {EA : ExactArith N}.
Variables (g : string) (cols : list string).
Hypothesis cols_nodup : NoDup cols.
Hypothesis key_not_summed : g ∉ cols.
Hypothesis no_suffix_clash : forall c, c ∈ cols -> c +:+ "_new" ∉ g :: cols.

Local Abbreviation new c := (c +:+ "_new").

Lemma sum_cells_from (x : num) (s : Series) :
  foldl (fun acc c => nadd acc (cell_num c)) x s = nadd x (sum_cells s).
Proof.
  unfold sum_cells. revert x. induction s as [|c s IH]; intros x; simpl.
  - rewrite nadd_zero_r. reflexivity.
  - rewrite IH. rewrite (IH (nadd nzero (cell_num c))).
    rewrite nadd_zero_l, nadd_assoc. reflexivity.
Qed.

Lemma sum_cells_app (s1 s2 : Series) :
  sum_cells (s1 ++ s2) = nadd (sum_cells s1) (sum_cells s2).
Proof. unfold sum_cells at 1. rewrite foldl_app. apply sum_cells_from. Qed.

Lemma total_app R1 R2 k c : total g (R1 ++ R2) k c = nadd (total g R1 k c) (total g R2 k c).
Proof.
  unfold total, group_rows. rewrite filter_app, map_app. apply sum_cells_app.
Qed.

Lemma total_absent R k c : k ∉ map (at_col g) R -> total g R k c = nzero.
Proof.
  intros Hk. unfold total, group_rows.
  assert (filter (fun r => at_col g r = k) R = []) as ->; [|reflexivity].
  induction R as [|r R IH]; [reflexivity|].
  rewrite filter_cons. destruct (decide (at_col g r = k)) as [He|He].
  - exfalso. apply Hk. simpl. apply elem_of_cons. left. symmetry. exact He.
  - apply IH. intros Hin. apply Hk. simpl. apply elem_of_cons. right. exact Hin.
Qed.

(** In a list with distinct keys, the rows of one key. *)
Lemma group_rows_unique (k : cell) (rs : list (gmap string cell)) :
  NoDup (map (at_col g) rs) ->
  ((k ∉ map (at_col g) rs) /\ group_rows g k rs = []) \/
  (exists r, r ∈ rs /\ at_col g r = k /\ group_rows g k rs = [r]).
Proof.
  unfold group_rows. induction rs as [|r rs IH]; simpl; intros Hnd.
  - left. split; [apply not_elem_of_nil|reflexivity].
  - apply NoDup_cons in Hnd as [Hr Hnd]. rewrite filter_cons.
    destruct (decide (at_col g r = k)) as [He|He].
    + right. exists r. split; [left|]. split; [exact He|]. f_equal.
      destruct (IH Hnd) as [[_ ->]|(r' & Hr' & He' & _)]; [reflexivity|].
      exfalso. apply Hr. rewrite He, <- He'.
      apply (list_elem_of_fmap_2 (at_col g)). exact Hr'.
    + destruct (IH Hnd) as [[Hk ->]|(r' & Hr' & He' & ->)].
      * left. split; [|reflexivity]. intros Hin.
        apply elem_of_cons in Hin as [Hin|Hin]; [congruence|contradiction].
      * right. exists r'. split; [right; exact Hr'|]. split; [exact He'|reflexivity].
Qed.

Definition not_text (c : cell) : Prop := forall s, c <> CStr s.

Lemma series_add_columns (c c' : string) (rs : list (gmap string cell)) :
  (forall m, m ∈ rs -> not_text (at_col c m) /\ not_text (at_col c' m)) ->
  series_add (map fillna0 (map (at_col c) rs)) (map fillna0 (map (at_col c') rs))
  = Ret (map (fun m => CNum (nadd (cell_num (at_col c m)) (cell_num (at_col c' m)))) rs).
Proof.
  induction rs as [|m rs IH]; intros Hnum; simpl; [reflexivity|].
  destruct (Hnum m) as [H1 H2]; [left|].
  rewrite IH by (intros m' Hm'; apply Hnum; right; exact Hm').
  destruct (at_col c m) as [s| x|]; [exfalso; exact (H1 s eq_refl)| |];
    destruct (at_col c' m) as [s'|y|]; try (exfalso; exact (H2 s' eq_refl));
    reflexivity.
Qed.

(** One turn of the loop after the merge, row by row. *)
Definition add_new_cell (c : string) (m : gmap string cell) : gmap string cell :=
  delete (new c) (<[c := CNum (nadd (cell_num (at_col c m)) (cell_num (at_col (new c) m)))]> m).

Lemma add_new_column_rows (D : DataFrame) (c : string) :
  c ∈ columns D -> new c ∈ columns D ->
  (forall m, m ∈ rows D -> not_text (at_col c m) /\ not_text (at_col (new c) m)) ->
  add_new_column D c
  = Ret {| columns := filter (fun c' => c' <> new c) (columns D);
           rows := map (add_new_cell c) (rows D) |}.
Proof.
  intros Hc Hn Hnum. unfold add_new_column, getitem, df_get.
  rewrite !has_column_true by assumption. simpl.
  rewrite series_add_columns by exact Hnum. simpl.
  rewrite has_column_true by (rewrite setitem_columns_present; assumption).
  unfold drop_column.
  rewrite has_column_true by (rewrite setitem_columns_present; assumption).
  f_equal. rewrite setitem_columns_present by exact Hc. f_equal.
  unfold setitem. simpl.
  transitivity (map (delete (new c))
    (map (fun m => <[c := CNum (nadd (cell_num (at_col c m))
                                  (cell_num (at_col (new c) m)))]> m) (rows D))).
  - f_equal. apply (imap_insert_map c
      (fun m => CNum (nadd (cell_num (at_col c m)) (cell_num (at_col (new c) m))))).
  - rewrite map_map. reflexivity.
Qed.

Lemma filter_ne_absent (x : string) (l : list string) :
  x ∉ l -> filter (fun c' => c' <> x) l = l.
Proof.
  induction l as [|a l IH]; intros Hx; [reflexivity|].
  rewrite filter_cons. rewrite decide_True.
  - f_equal. apply IH. intros Hin. apply Hx. right. exact Hin.
  - intros ->. apply Hx. left.
Qed.

(** The rows between the merge and the end of the loop: the columns of
    [done] hold the sum of the two totals, those of [todo] still hold the
    total of the left frame, and their [_new] twins that of the right
    frame. *)
Variables (t1 t2 : cell -> string -> num).

Definition pending (done todo : list string) (k : cell) (m : gmap string cell) : Prop :=
  m !! g = Some k /\
  (forall c, c ∈ done -> m !! c = Some (CNum (nadd (t1 k c) (t2 k c)))) /\
  (forall c, c ∈ todo ->
     not_text (at_col c m) /\ cell_num (at_col c m) = t1 k c /\
     not_text (at_col (new c) m) /\ cell_num (at_col (new c) m) = t2 k c) /\
  (forall c', c' ∉ g :: done ++ todo ++ map (fun c => new c) todo -> m !! c' = None).

Lemma pending_step done c rest k m :
  done ++ c :: rest = cols ->
  pending done (c :: rest) k m -> pending (done ++ [c]) rest k (add_new_cell c m).
Proof.
  intros Hcols (Hg & Hdone & Htodo & Hdom).
  assert (NoDup (done ++ c :: rest)) as Hnd by (rewrite Hcols; exact cols_nodup).
  apply NoDup_app in Hnd as (_ & Hdisj & Hnd2). apply NoDup_cons in Hnd2 as [Hc_rest _].
  assert (c ∈ cols) as Hc by (rewrite <- Hcols; apply elem_of_app; right; left).
  assert (forall d, d ∈ done -> d ∈ cols) as Hdone_cols
    by (intros d Hd; rewrite <- Hcols; apply elem_of_app; left; exact Hd).
  assert (forall d, d ∈ rest -> d ∈ cols) as Hrest_cols
    by (intros d Hd; rewrite <- Hcols; apply elem_of_app; right; right; exact Hd).
  assert (forall d, d ∈ cols -> d <> new c) as Hnot_new.
  { intros d Hd ->. apply (no_suffix_clash c Hc). right. exact Hd. }
  assert (g <> new c) as Hg_new.
  { intros Heq. apply (no_suffix_clash c Hc). rewrite <- Heq. left. }
  assert (g <> c) as Hg_c by (intros ->; contradiction).
  unfold add_new_cell. split; [|split; [|split]].
  - rewrite lookup_delete_ne by congruence. rewrite lookup_insert_ne by congruence.
    exact Hg.
  - intros d Hd. apply elem_of_app in Hd as [Hd|Hd].
    + pose proof (Hnot_new d (Hdone_cols d Hd)) as Hd1.
      assert (d <> c) as Hd2 by (intros ->; apply (Hdisj c Hd); left).
      rewrite lookup_delete_ne by congruence. rewrite lookup_insert_ne by congruence.
      apply Hdone. exact Hd.
    + apply list_elem_of_singleton in Hd as ->.
      rewrite lookup_delete_ne by apply append_new_neq.
      rewrite lookup_insert_eq.
      destruct (Htodo c) as (_ & -> & _ & ->); [left|]. reflexivity.
  - intros c0 Hc0.
    pose proof (Hrest_cols c0 Hc0) as Hc0_cols.
    pose proof (Hnot_new c0 Hc0_cols) as Hn1.
    assert (c0 <> c) as Hn2 by (intros ->; contradiction).
    assert (new c0 <> new c) as Hn3
      by (intros Heq; apply append_new_inj in Heq; contradiction).
    assert (new c0 <> c) as Hn4.
    { intros Heq. apply (no_suffix_clash c0 Hc0_cols). rewrite Heq. right. exact Hc. }
    destruct (Htodo c0) as (Ha & Hb & Hc' & Hd); [right; exact Hc0|].
    unfold at_col in *.
    rewrite !lookup_delete_ne by congruence. rewrite !lookup_insert_ne by congruence.
    repeat split; assumption.
  - intros c' Hc'. destruct (decide (c' = new c)) as [->|Hne].
    + apply lookup_delete_eq.
    + rewrite lookup_delete_ne by congruence.
      assert (c' <> c) as Hne2.
      { intros ->. apply Hc'. right. apply elem_of_app. left.
        apply elem_of_app. right. left. }
      rewrite lookup_insert_ne by congruence.
      apply Hdom. intros Hin. apply Hc'.
      apply elem_of_cons in Hin as [->|Hin]; [left|]. right.
      apply elem_of_app in Hin as [Hin|Hin].
      { apply elem_of_app. left. apply elem_of_app. left. exact Hin. }
      apply elem_of_app in Hin as [Hin|Hin].
      { apply elem_of_cons in Hin as [->|Hin]; [contradiction|].
        apply elem_of_app. right. apply elem_of_app. left. exact Hin. }
      simpl in Hin. apply elem_of_cons in Hin as [->|Hin]; [contradiction|].
      apply elem_of_app. right. apply elem_of_app. right. exact Hin.
Qed.

Lemma Forall2_exists_r {A B : Type} (P : A -> B -> Prop) (l : list A) (k : list B) y :
  Forall2 P l k -> y ∈ k -> exists x, x ∈ l /\ P x y.
Proof.
  induction 1 as [|x y' l k HP HF IH]; intros Hy; [inversion Hy|].
  apply elem_of_cons in Hy as [->|Hy].
  - exists x. split; [left|exact HP].
  - destruct (IH Hy) as (x' & Hx' & HP'). exists x'. split; [right; exact Hx'|exact HP'].
Qed.

Lemma fold_add_new_columns (todo : list string) :
  forall done (D : DataFrame) (keys : list cell),
    done ++ todo = cols ->
    columns D = (g :: cols) ++ map (fun c => new c) todo ->
    Forall2 (pending done todo) keys (rows D) ->
    exists F, fold_outcome add_new_column D todo = Ret F /\
              columns F = g :: cols /\
              Forall2 (pending cols []) keys (rows F).
Proof.
  induction todo as [|c rest IH]; intros done D keys Hcols Hcolumns HF.
  - rewrite app_nil_r in Hcols. subst done. exists D. split; [reflexivity|].
    split; [rewrite Hcolumns; apply app_nil_r|exact HF].
  - assert (c ∈ cols) as Hc by (rewrite <- Hcols; apply elem_of_app; right; left).
    assert (NoDup (done ++ c :: rest)) as Hnd by (rewrite Hcols; exact cols_nodup).
    apply NoDup_app in Hnd as (_ & _ & Hnd2). apply NoDup_cons in Hnd2 as [Hc_rest _].
    simpl. rewrite add_new_column_rows.
    + unfold mbind, outcome_bind.
      apply (IH (done ++ [c])).
      * rewrite <- app_assoc. exact Hcols.
      * simpl. rewrite Hcolumns. rewrite filter_app.
        rewrite filter_ne_absent by (apply no_suffix_clash; exact Hc).
        rewrite <- app_comm_cons. f_equal. f_equal.
        change (map (fun c0 => new c0) (c :: rest))
          with (new c :: map (fun c0 => new c0) rest).
        rewrite filter_cons.
        rewrite decide_False by (intros Hne; apply Hne; reflexivity).
        apply filter_ne_absent. intros Hin.
        apply (list_elem_of_fmap (fun c0 => new c0)) in Hin as (c' & Heq & Hc').
        apply append_new_inj in Heq. subst c'. contradiction.
      * simpl. apply Forall2_fmap_r.
        eapply Forall2_impl; [exact HF|].
        intros k m Hp. apply pending_step; assumption.
    + rewrite Hcolumns. apply elem_of_app. left. right. exact Hc.
    + rewrite Hcolumns. apply elem_of_app. right. left.
    + intros m Hm. destruct (Forall2_exists_r _ _ _ _ HF Hm) as (k & _ & _ & _ & Ht & _).
      destruct (Ht c) as (Ha & _ & Hb & _); [left|]. split; assumption.
Qed.

End Combine.

Section Merge.
Context {N : Numeric} {EA : ExactArith N}.
Variables (g : string) (cols : list string).
Hypothesis cols_nodup : NoDup cols.
Hypothesis key_not_summed : g ∉ cols.
Hypothesis no_suffix_clash : forall c, c ∈ cols -> c +:+ "_new" ∉ g :: cols.

Local Abbreviation new c := (c +:+ "_new").

Lemma at_col_lookup c (r : gmap string cell) v : r !! c = Some v -> at_col c r = v.
Proof. intros H. unfold at_col. rewrite H. reflexivity. Qed.

Lemma lookup_at_col c (r : gmap string cell) :
  at_col c r <> CNaN -> r !! c = Some (at_col c r).
Proof. unfold at_col. destruct (r !! c); simpl; [reflexivity|congruence]. Qed.

(** The cells of the right frame under their suffixed labels. *)
Definition renamed (r : gmap string cell) : gmap string cell :=
  list_to_map (map (fun c => (new c, at_col c r)) cols).

Lemma lookup_renamed_new (cs : list string) (f : string -> cell) c :
  c ∈ cs ->
  (list_to_map (map (fun c => (new c, f c)) cs) : gmap string cell) !! new c = Some (f c).
Proof.
  induction cs as [|c0 cs IH]; intros Hc; [inversion Hc|]. simpl.
  destruct (decide (c0 = c)) as [->|Hne].
  - apply lookup_insert_eq.
  - rewrite lookup_insert_ne
      by (intros Heq; apply append_new_inj in Heq; contradiction).
    apply IH. apply elem_of_cons in Hc as [->|Hc]; [contradiction|exact Hc].
Qed.

Lemma lookup_renamed_other (cs : list string) (f : string -> cell) x :
  x ∉ map (fun c => new c) cs ->
  (list_to_map (map (fun c => (new c, f c)) cs) : gmap string cell) !! x = None.
Proof.
  induction cs as [|c0 cs IH]; intros Hx; simpl; [apply lookup_empty|].
  rewrite lookup_insert_ne.
  - apply IH. intros Hin. apply Hx. simpl. right. exact Hin.
  - intros <-. apply Hx. simpl. left.
Qed.

Lemma lookup_nan_part (cs : list string) c :
  (nan_part cs : gmap string cell) !! c = if decide (c ∈ cs) then Some CNaN else None.
Proof. unfold nan_part. apply (lookup_sums cs (fun _ => CNaN)). Qed.

Lemma cols_not_new c : c ∈ cols -> c ∉ map (fun c => new c) cols.
Proof.
  intros Hc Hin. apply (list_elem_of_fmap (fun c0 => new c0)) in Hin as (c' & -> & Hc').
  apply (no_suffix_clash c' Hc'). right. exact Hc.
Qed.

Lemma key_not_new : g ∉ map (fun c => new c) cols.
Proof.
  intros Hin. apply (list_elem_of_fmap (fun c0 => new c0)) in Hin as (c' & Heq & Hc').
  apply (no_suffix_clash c' Hc'). rewrite <- Heq. left.
Qed.

Lemma right_cols_eq (F : DataFrame) : columns F = g :: cols -> right_cols F g = cols.
Proof.
  intros H. unfold right_cols. rewrite H, filter_cons.
  rewrite decide_False by (intros Hne; apply Hne; reflexivity).
  apply filter_ne_absent. exact key_not_summed.
Qed.

Lemma merge_rename_eq (F1 F2 : DataFrame) c :
  columns F1 = g :: cols -> c ∈ cols -> merge_rename F1 F2 g "_new" c = new c.
Proof.
  intros H1 Hc. unfold merge_rename. rewrite H1.
  rewrite bool_decide_eq_true_2 by (right; exact Hc).
  destruct (String.eqb_spec c g) as [->|_]; [contradiction|reflexivity].
Qed.

Lemma map_ext_elem {A B : Type} (f h : A -> B) (l : list A) :
  (forall x, x ∈ l -> f x = h x) -> map f l = map h l.
Proof.
  intros H. apply map_ext_in. intros x Hx. apply H, list_elem_of_In, Hx.
Qed.

Lemma right_part_eq (F1 F2 : DataFrame) r :
  columns F1 = g :: cols -> columns F2 = g :: cols ->
  right_part F1 F2 g "_new" r = renamed r.
Proof.
  intros H1 H2. unfold right_part, renamed. rewrite (right_cols_eq F2 H2).
  f_equal. apply map_ext_elem. intros c Hc.
  rewrite (merge_rename_eq F1 F2 c H1 Hc). reflexivity.
Qed.

Lemma renamed_cols_eq (F1 F2 : DataFrame) :
  columns F1 = g :: cols -> columns F2 = g :: cols ->
  map (merge_rename F1 F2 g "_new") (right_cols F2 g) = map (fun c => new c) cols.
Proof.
  intros H1 H2. rewrite (right_cols_eq F2 H2). apply map_ext_elem.
  intros c Hc. apply merge_rename_eq; assumption.
Qed.

Lemma merge_rows_pending (F1 F2 : DataFrame) R1 R2 (k : cell) :
  denotes g cols F1 R1 -> denotes g cols F2 R2 ->
  k ∈ map (at_col g) (rows F1) \/ k ∈ map (at_col g) (rows F2) ->
  exists m, merge_rows F1 F2 g "_new" k = [m] /\
            pending g (total g R1) (total g R2) [] cols k m.
Proof.
  intros (Hc1 & Hnd1 & Hk1 & Hr1) (Hc2 & Hnd2 & Hk2 & Hr2) Hk.
  unfold merge_rows.
  assert (forall r, right_part F1 F2 g "_new" r = renamed r) as Hrp
    by (intros r; apply right_part_eq; assumption).
  rewrite (renamed_cols_eq F1 F2 Hc1 Hc2).
  assert (filter (fun c => c <> g) (columns F1) = cols) as ->
    by (apply (right_cols_eq F1 Hc1)).
  destruct (group_rows_unique g k (rows F1) Hnd1) as [[Hn1 ->]|(l & Hl & Hkl & ->)];
    destruct (group_rows_unique g k (rows F2) Hnd2) as [[Hn2 ->]|(r & Hr & Hkr & ->)].
  - exfalso. destruct Hk; contradiction.
  - (* the key is new to the running result *)
    destruct (Hr2 r Hr) as (Hnan & Htot & Hdom). rewrite Hkr in Htot.
    eexists. split; [simpl; rewrite Hrp; reflexivity|].
    split; [apply lookup_insert_eq|]. split; [intros c Hc; inversion Hc|]. split.
    + intros c Hc.
      assert (c <> g) as Hcg by (intros ->; contradiction).
      assert (new c <> g) as Hng.
      { intros Heq. apply (no_suffix_clash c Hc). rewrite Heq. left. }
      unfold at_col. rewrite !lookup_insert_ne by congruence.
      rewrite (lookup_union_r (renamed r) _ c)
        by (apply lookup_renamed_other, cols_not_new; exact Hc).
      rewrite lookup_nan_part, decide_True by exact Hc.
      rewrite (lookup_union_l' (renamed r) _ (new c))
        by (unfold renamed; rewrite lookup_renamed_new by exact Hc; eauto).
      unfold renamed. rewrite lookup_renamed_new by exact Hc.
      rewrite (at_col_lookup c r _ (Htot c Hc)). simpl.
      repeat split; try (intros s; discriminate).
      symmetry. apply total_absent. rewrite <- Hk1. exact Hn1.
    + intros c' Hc'. simpl in Hc'.
      rewrite lookup_insert_ne by (intros ->; apply Hc'; left).
      apply lookup_union_None. split.
      * apply lookup_renamed_other. intros Hin. apply Hc'. right.
        apply elem_of_app. right. exact Hin.
      * rewrite lookup_nan_part, decide_False; [reflexivity|].
        intros Hin. apply Hc'. right. apply elem_of_app. left. exact Hin.
  - (* the key is absent from the chunk *)
    destruct (Hr1 l Hl) as (Hnan & Htot & Hdom). rewrite Hkl in Htot, Hnan.
    pose proof (lookup_at_col g l) as Hlg. rewrite Hkl in Hlg. specialize (Hlg Hnan).
    eexists. split; [reflexivity|].
    split; [rewrite lookup_union_l' by eauto; exact Hlg|].
    split; [intros c Hc; inversion Hc|]. split.
    + intros c Hc. unfold at_col.
      rewrite (lookup_union_l' l _ c) by (rewrite (Htot c Hc); eauto).
      rewrite (Htot c Hc).
      rewrite (lookup_union_r l _ (new c)) by (apply Hdom, no_suffix_clash; exact Hc).
      rewrite lookup_nan_part.
      rewrite decide_True by (apply (list_elem_of_fmap_2 (fun c0 => new c0)); exact Hc).
      simpl. repeat split; try (intros s; discriminate).
      symmetry. apply total_absent. rewrite <- Hk2. exact Hn2.
    + intros c' Hc'. simpl in Hc'. apply lookup_union_None. split.
      * apply Hdom. intros Hin. apply Hc'.
        apply elem_of_cons in Hin as [->|Hin]; [left|].
        right. apply elem_of_app. left. exact Hin.
      * rewrite lookup_nan_part, decide_False; [reflexivity|].
        intros Hin. apply Hc'. right. apply elem_of_app. right. exact Hin.
  - (* the key is on both sides *)
    destruct (Hr1 l Hl) as (Hnan & Htot & Hdom). rewrite Hkl in Htot, Hnan.
    pose proof (lookup_at_col g l) as Hlg. rewrite Hkl in Hlg. specialize (Hlg Hnan).
    destruct (Hr2 r Hr) as (_ & Htot2 & _). rewrite Hkr in Htot2.
    eexists. split; [simpl; rewrite Hrp; reflexivity|].
    split; [rewrite lookup_union_l' by eauto; exact Hlg|].
    split; [intros c Hc; inversion Hc|]. split.
    + intros c Hc. unfold at_col.
      rewrite (lookup_union_l' l _ c) by (rewrite (Htot c Hc); eauto).
      rewrite (Htot c Hc).
      rewrite (lookup_union_r l _ (new c)) by (apply Hdom, no_suffix_clash; exact Hc).
      unfold renamed. rewrite lookup_renamed_new by exact Hc.
      rewrite (at_col_lookup c r _ (Htot2 c Hc)). simpl.
      repeat split; intros s; discriminate.
    + intros c' Hc'. simpl in Hc'. apply lookup_union_None. split.
      * apply Hdom. intros Hin. apply Hc'.
        apply elem_of_cons in Hin as [->|Hin]; [left|].
        right. apply elem_of_app. left. exact Hin.
      * apply lookup_renamed_other. intros Hin. apply Hc'. right.
        apply elem_of_app. right. exact Hin.
Qed.

Lemma Forall2_bind_singleton {A B : Type} (P : A -> B -> Prop) (f : A -> list B)
    (ks : list A) :
  (forall k, k ∈ ks -> exists m, f k = [m] /\ P k m) -> Forall2 P ks (ks ≫= f).
Proof.
  induction ks as [|k ks IH]; intros H; [constructor|].
  destruct (H k) as (m & Hm & HP); [left|].
  change ((k :: ks) ≫= f) with (f k ++ (ks ≫= f)). rewrite Hm. simpl.
  constructor; [exact HP|]. apply IH. intros k' Hk'. apply H. right. exact Hk'.
Qed.

Lemma pending_keys t1 t2 done todo (keys : list cell) (rs : list (gmap string cell)) :
  Forall2 (pending g t1 t2 done todo) keys rs -> map (at_col g) rs = keys.
Proof.
  induction 1 as [|k m keys rs (Hg & _) _ IH]; [reflexivity|].
  simpl. rewrite IH, (at_col_lookup g m k Hg). reflexivity.
Qed.

(** Folding the grouped sums of a chunk into the running result gives the
    grouped sums of all the rows seen. *)
Lemma combine_results_denotes (F1 F2 : DataFrame) R1 R2 :
  denotes g cols F1 R1 -> denotes g cols F2 R2 ->
  exists F, combine_results F1 F2 g cols = Ret F /\ denotes g cols F (R1 ++ R2).
Proof.
  intros H1 H2.
  pose proof H1 as (Hc1 & Hnd1 & Hk1 & Hr1). pose proof H2 as (Hc2 & Hnd2 & Hk2 & Hr2).
  unfold combine_results, merge_outer.
  rewrite !has_column_true by (rewrite ?Hc1, ?Hc2; left). simpl.
  rewrite (renamed_cols_eq F1 F2 Hc1 Hc2).
  set (keys := merge_sort cell_le
                 (remove_dups (map (at_col g) (rows F1) ++ map (at_col g) (rows F2)))).
  assert (forall k, k ∈ keys <->
            k ∈ map (at_col g) (rows F1) \/ k ∈ map (at_col g) (rows F2)) as Hkeys.
  { intros k. unfold keys. rewrite merge_sort_Permutation, elem_of_remove_dups.
    apply elem_of_app. }
  assert (NoDup keys) as Hnd
    by (unfold keys; rewrite merge_sort_Permutation; apply NoDup_remove_dups).
  assert (Forall2 (pending g (total g R1) (total g R2) [] cols) keys
            (keys ≫= merge_rows F1 F2 g "_new")) as HF.
  { apply Forall2_bind_singleton. intros k Hk.
    apply (merge_rows_pending F1 F2 R1 R2 k H1 H2). apply Hkeys. exact Hk. }
  destruct (fold_add_new_columns g cols cols_nodup key_not_summed no_suffix_clash
              (total g R1) (total g R2) cols []
              {| columns := columns F1 ++ map (fun c => new c) cols;
                 rows := keys ≫= merge_rows F1 F2 g "_new" |} keys)
    as (F & HFold & HFc & HFr).
  { reflexivity. }
  { simpl. rewrite Hc1. reflexivity. }
  { exact HF. }
  exists F. split; [exact HFold|].
  pose proof (pending_keys _ _ _ _ _ _ HFr) as Hmap.
  split; [exact HFc|]. split; [rewrite Hmap; exact Hnd|]. split.
  - intros k. rewrite Hmap, Hkeys, Hk1, Hk2, map_app. symmetry. apply elem_of_app.
  - intros row Hrow.
    destruct (Forall2_exists_r _ _ _ _ HFr Hrow) as (k & Hk & Hg & Hdone & _ & Hdom).
    rewrite (at_col_lookup g row k Hg). split; [|split].
    + apply Hkeys in Hk as [Hk|Hk].
      * apply (list_elem_of_fmap (at_col g)) in Hk as (l & -> & Hl). apply (Hr1 l Hl).
      * apply (list_elem_of_fmap (at_col g)) in Hk as (r & -> & Hr). apply (Hr2 r Hr).
    + intros c Hc. rewrite (Hdone c Hc), total_app. reflexivity.
    + intros c Hc. apply Hdom. rewrite !app_nil_r. exact Hc.
Qed.

End Merge.

(** ** A block made ready for the grouped sum *)

Section Blocks.
Context {N : Numeric} (env : Env).

(** What the loop over the sum columns does to the labels and to one row of
    a block with labels [cs]. *)
Fixpoint coerce_columns (cs cols : list string) : list string :=
  match cols with
  | [] => cs
  | col :: rest =>
      if decide (col ∈ cs) then coerce_columns cs rest
      else coerce_columns (cs ++ [col]) rest
  end.

Fixpoint coerce_row (cs cols : list string) (r : gmap string cell) : gmap string cell :=
  match cols with
  | [] => r
  | col :: rest =>
      if decide (col ∈ cs) then coerce_row cs rest (<[col := coerce_cell (at_col col r)]> r)
      else coerce_row (cs ++ [col]) rest (<[col := CNum nzero]> r)
  end.

Definition key_as_str (g : string) (r : gmap string cell) : gmap string cell :=
  <[g := CStr (str_cell (at_col g r))]> r.

Definition prepared_row (cs : list string) (g : string) (cols : list string)
    (r : gmap string cell) : gmap string cell :=
  coerce_row cs cols (key_as_str g r).

Definition printed (w : world) (out : list string) : world :=
  {| progress := progress w; stdout := stdout w ++ out; files := files w |}.

Lemma printed_nil w : printed w [] = w.
Proof. unfold printed. rewrite app_nil_r. destruct w; reflexivity. Qed.

Lemma printed_printed w o1 o2 : printed (printed w o1) o2 = printed w (o1 ++ o2).
Proof. unfold printed. simpl. rewrite app_assoc. reflexivity. Qed.

Lemma coerce_sum_columns_run where_ cols :
  forall (df : DataFrame) w, exists out,
    coerce_sum_columns where_ df cols w
    = (Ret {| columns := coerce_columns (columns df) cols;
              rows := map (coerce_row (columns df) cols) (rows df) |},
       printed w out).
Proof.
  unfold coerce_sum_columns.
  induction cols as [|col rest IH]; intros df w; simpl.
  - exists []. rewrite printed_nil, map_id. destruct df; reflexivity.
  - destruct (decide (col ∈ columns df)) as [Hin|Hnin].
    + rewrite has_column_true by exact Hin.
      rewrite getitem_present by exact Hin.
      erewrite M_bind_ret by (erewrite M_bind_ret by apply lift_eq; reflexivity).
      cbv beta.
      destruct (IH (setitem df col (coerce_numeric (map (at_col col) (rows df)))) w)
        as (out & ->).
      exists out. rewrite setitem_columns_present by exact Hin.
      rewrite coerce_numeric_map, setitem_rows, map_map. reflexivity.
    + rewrite has_column_false by exact Hnin.
      erewrite M_bind_ret by (erewrite M_bind_ret by reflexivity; reflexivity).
      cbv beta.
      change (print ?m w).2 with (printed w [m]).
      match goal with
      | |- context [for_fold _ ?d rest ?w'] => destruct (IH d w') as (out & ->)
      end.
      exists (("警告：求和列 '" +:+ col +:+ "' 不存在于" +:+ where_ +:+ "中，将被忽略。") :: out).
      unfold printed, setitem_scalar. simpl.
      rewrite has_column_false by exact Hnin. rewrite map_map, <- app_assoc. reflexivity.
Qed.

Lemma summarize_block_run where_ (df : DataFrame) g cols w :
  g ∈ columns df ->
  exists out,
    summarize_block where_ df g cols w
    = (Ret {| columns := coerce_columns (columns df) cols;
              rows := map (prepared_row (columns df) g cols) (rows df) |},
       printed w out).
Proof.
  intros Hg. unfold summarize_block. rewrite getitem_present by exact Hg.
  erewrite M_bind_ret by apply lift_eq.
  destruct (coerce_sum_columns_run where_ cols
              (setitem df g (astype_str (map (at_col g) (rows df)))) w) as (out & ->).
  exists out. rewrite setitem_columns_present by exact Hg.
  unfold astype_str. rewrite setitem_rows, map_map. reflexivity.
Qed.

Lemma coerce_columns_incl cs cols c : c ∈ cs -> c ∈ coerce_columns cs cols.
Proof.
  revert cs. induction cols as [|col rest IH]; intros cs Hc; simpl; [exact Hc|].
  destruct (decide (col ∈ cs)); apply IH; [exact Hc|].
  apply elem_of_app. left. exact Hc.
Qed.

Lemma coerce_columns_cols cs cols c : c ∈ cols -> c ∈ coerce_columns cs cols.
Proof.
  revert cs. induction cols as [|col rest IH]; intros cs Hc; simpl; [inversion Hc|].
  apply elem_of_cons in Hc as [->|Hc].
  - destruct (decide (col ∈ cs)); apply coerce_columns_incl; [assumption|].
    apply elem_of_app. right. left.
  - destruct (decide (col ∈ cs)); apply IH; exact Hc.
Qed.

Lemma coerce_row_other cs cols c r : c ∉ cols -> coerce_row cs cols r !! c = r !! c.
Proof.
  revert cs r. induction cols as [|col rest IH]; intros cs r Hc; simpl; [reflexivity|].
  assert (col <> c) as Hne by (intros ->; apply Hc; left).
  assert (c ∉ rest) as Hrest by (intros Hin; apply Hc; right; exact Hin).
  destruct (decide (col ∈ cs)); rewrite IH by exact Hrest;
    apply lookup_insert_ne; exact Hne.
Qed.

(** The key of a prepared row is never NaN. *)
Lemma coerce_row_key cs cols g r :
  at_col g r <> CNaN -> at_col g (coerce_row cs cols r) <> CNaN.
Proof.
  revert cs r. induction cols as [|col rest IH]; intros cs r Hg; simpl; [exact Hg|].
  destruct (decide (col ∈ cs)); apply IH.
  - destruct (decide (col = g)) as [->|Hne].
    + rewrite at_col_insert. destruct (coerce_cell_num (at_col g r)) as [x ->].
      discriminate.
    + rewrite at_col_insert_ne by exact Hne. exact Hg.
  - destruct (decide (col = g)) as [->|Hne].
    + rewrite at_col_insert. discriminate.
    + rewrite at_col_insert_ne by exact Hne. exact Hg.
Qed.

Lemma prepared_row_key cs g cols r : at_col g (prepared_row cs g cols r) <> CNaN.
Proof.
  apply coerce_row_key. unfold key_as_str. rewrite at_col_insert. discriminate.
Qed.

(** A sum column the block lacks is zero in every prepared row. *)
Lemma coerce_row_missing cs cols c r :
  NoDup cols -> c ∈ cols -> c ∉ cs -> at_col c (coerce_row cs cols r) = CNum nzero.
Proof.
  revert cs r. induction cols as [|col rest IH]; intros cs r Hnd Hc Hcs; simpl;
    [inversion Hc|].
  apply NoDup_cons in Hnd as [Hcol Hnd].
  apply elem_of_cons in Hc as [->|Hc].
  - rewrite decide_False by exact Hcs. unfold at_col.
    rewrite coerce_row_other by exact Hcol. rewrite lookup_insert_eq. reflexivity.
  - destruct (decide (col ∈ cs)).
    + apply IH; assumption.
    + apply IH; [assumption..|]. intros Hin.
      apply elem_of_app in Hin as [Hin|Hin]; [contradiction|].
      apply list_elem_of_singleton in Hin. subst. contradiction.
Qed.

End Blocks.

(** ** The two ways of summing a file *)

Lemma files_logged {N : Numeric} cb p (w : world) : files (logged cb p w) = files w.
Proof. unfold logged. destruct cb; reflexivity. Qed.

Lemma for_fold_app {N : Numeric} {A S : Type} (body : S -> A -> M S) (s : S)
    (xs ys : list A) (w : world) :
  for_fold body s (xs ++ ys) w = (for_fold body s xs ≫= fun s' => for_fold body s' ys) w.
Proof.
  revert s w. induction xs as [|x xs IH]; intros s w; simpl; [reflexivity|].
  unfold mbind, M_bind. destruct (body s x w) as [[s'|e] w']; [apply IH|reflexivity].
Qed.

Section Processes.
Context {N : Numeric} {EA : ExactArith N} (env : Env).
Variables (g : string) (cols : list string).
Hypothesis cols_nodup : NoDup cols.
Hypothesis key_not_summed : g ∉ cols.

(** The prepared rows of a block. *)
Definition prepared_rows (df : DataFrame) : list (gmap string cell) :=
  map (prepared_row (columns df) g cols) (rows df).

Lemma block_result where_ (df : DataFrame) w :
  g ∈ columns df ->
  exists prepared F out,
    summarize_block where_ df g cols w = (Ret prepared, printed w out) /\
    groupby_sum prepared g cols = Ret F /\
    denotes g cols F (prepared_rows df).
Proof.
  intros Hg. destruct (summarize_block_run where_ df g cols w Hg) as (out & Hrun).
  destruct (groupby_sum_denotes g cols
              {| columns := coerce_columns (columns df) cols;
                 rows := map (prepared_row (columns df) g cols) (rows df) |})
    as (F & HF & Hden).
  - exact key_not_summed.
  - simpl. apply coerce_columns_incl. exact Hg.
  - simpl. intros c Hc. apply coerce_columns_cols. exact Hc.
  - simpl. intros r Hr.
    apply (list_elem_of_fmap (prepared_row (columns df) g cols)) in Hr as (r0 & -> & _).
    apply prepared_row_key.
  - eexists _, F, out. split; [exact Hrun|]. split; [exact HF|exact Hden].
Qed.

Lemma process_entire_file_run file_path encoding delimiter cb (df : DataFrame) w :
  reads env file_path encoding delimiter None (Whole df) ->
  g ∈ columns df ->
  exists F w',
    _process_entire_file env file_path g cols encoding delimiter cb w = (Ret (Some F), w') /\
    denotes g cols F (prepared_rows df) /\ files w' = files w.
Proof.
  intros Hread Hg. unfold _process_entire_file.
  erewrite M_bind_ret by apply report_eq.
  destruct (Hread (logged cb 30 w)) as (e & d & Hr).
  erewrite M_bind_ret by exact Hr. cbv beta iota.
  erewrite M_bind_ret by apply lift_eq.
  erewrite M_bind_ret by apply report_eq.
  rewrite has_column_true by exact Hg. unfold negb.
  destruct (block_result "文件" df (logged cb 60 (logged cb 30 w)) Hg)
    as (prepared & F & out & Hrun & HF & Hden).
  erewrite M_bind_ret by exact Hrun.
  erewrite M_bind_ret by apply report_eq.
  rewrite HF. erewrite M_bind_ret by apply lift_eq.
  eexists F, _. split; [reflexivity|]. split; [exact Hden|].
  rewrite files_logged. unfold printed. simpl. rewrite !files_logged. reflexivity.
Qed.

Hypothesis no_suffix_clash : forall c, c ∈ cols -> c +:+ "_new" ∉ g :: cols.

(** What the loop over the chunks keeps: no file is written, and the running
    result holds the grouped sums of the chunks seen. *)
Definition chunks_folded (w0 : world)
    (st : option DataFrame * nat * Z) (w : world) (seen : list DataFrame) : Prop :=
  files w = files w0 /\
  match st.1.1 with
  | None => seen = []
  | Some F => denotes g cols F (seen ≫= prepared_rows)
  end.

Lemma chunk_turn cb (w0 : world) (st : option DataFrame * nat * Z) seen chunk w :
  g ∈ columns chunk -> chunks_folded w0 st w seen ->
  exists st' w',
    (let '(result, processed_rows, chunk_count) := st in
     if negb (has_column chunk g)
     then raise (ValueError ("分组列 '" +:+ g +:+ "' 不存在于当前数据块中。"))
     else
       prepared ← summarize_block "当前数据块" chunk g cols;
       chunk_result ← lift (groupby_sum prepared g cols);
       result ← lift (match result with
                      | None => Ret chunk_result
                      | Some result => combine_results result chunk_result g cols
                      end);
       let processed_rows := (processed_rows + length (rows chunk))%nat in
       let chunk_count := chunk_count + 1 in
       _ ← report cb (Z.min 90 (10 + chunk_count * 5));
       mret (Some result, processed_rows, chunk_count)) w
    = (Ret st', w') /\ chunks_folded w0 st' w' (seen ++ [chunk]).
Proof.
  intros Hg [Hfiles Hres]. destruct st as [[res pr] cc]. simpl in Hres.
  rewrite has_column_true by exact Hg. unfold negb.
  destruct (block_result "当前数据块" chunk w Hg) as (prepared & F2 & out & Hrun & HF & Hden).
  erewrite M_bind_ret by exact Hrun.
  rewrite HF. erewrite M_bind_ret by apply lift_eq.
  assert (exists F,
    match res with
    | Some result => combine_results result F2 g cols
    | None => Ret F2
    end = Ret F /\ denotes g cols F ((seen ++ [chunk]) ≫= prepared_rows))
    as (F & -> & HdenF).
  { destruct res as [F1|].
    - destruct (combine_results_denotes g cols cols_nodup key_not_summed no_suffix_clash
                  F1 F2 _ _ Hres Hden) as (F & HF' & HdF).
      exists F. split; [exact HF'|]. rewrite bind_app. simpl. rewrite app_nil_r.
      exact HdF.
    - subst seen. exists F2. split; [reflexivity|]. simpl. rewrite app_nil_r.
      exact Hden. }
  erewrite M_bind_ret by apply lift_eq. cbv beta zeta.
  erewrite M_bind_ret by apply report_eq.
  eexists _, _. split; [reflexivity|]. split; [|exact HdenF].
  rewrite files_logged. exact Hfiles.
Qed.

Lemma process_in_chunks_run file_path encoding delimiter chunk_size cb
    (reader : TextFileReader) w :
  reads env file_path encoding delimiter (Some chunk_size) (Chunked reader) ->
  tfr_error reader = None ->
  Forall (fun c => g ∈ columns c) (tfr_chunks reader) ->
  exists res w',
    _process_in_chunks env file_path g cols encoding delimiter chunk_size cb w
    = (Ret res, w') /\
    files w' = files w /\
    match res with
    | None => tfr_chunks reader = []
    | Some F => denotes g cols F (tfr_chunks reader ≫= prepared_rows)
    end.
Proof.
  intros Hread Herr Hcols. unfold _process_in_chunks.
  erewrite M_bind_ret by apply report_eq.
  destruct (Hread (logged cb 10 w)) as (e & d & Hr).
  erewrite M_bind_ret by exact Hr. cbv beta iota.
  erewrite M_bind_ret by apply lift_eq.
  unfold for_reader. rewrite Herr.
  match goal with
  | |- context [for_fold ?b _ _] => set (body := b)
  end.
  destruct (for_fold_inv body (chunks_folded (logged cb 10 w)) (tfr_chunks reader) []
              (None, 0%nat, 0) (logged cb 10 w))
    as ([[res pr] cc] & w' & Hloop & Hfiles & Hres).
  { split; reflexivity. }
  { intros st pre chunk w1 Hin Hinv. rewrite Forall_forall in Hcols.
    destruct (chunk_turn cb _ st pre chunk w1 (Hcols chunk Hin) Hinv)
      as (st' & w1' & Hturn & Hinv').
    exists st', w1'. split; [|exact Hinv'].
    destruct st as [[res0 pr0] cc0]. exact Hturn. }
  erewrite M_bind_ret by (erewrite M_bind_ret by exact Hloop; reflexivity).
  cbv beta iota. exists res, w'. split; [reflexivity|].
  split; [rewrite Hfiles; apply files_logged|]. simpl in Hres.
  destruct res; [exact Hres|]. exact Hres.
Qed.

(** A chunk without the grouping column ends the loop with a [ValueError]
    that names the column. *)
Lemma process_in_chunks_missing_key file_path encoding delimiter chunk_size cb
    (reader : TextFileReader) (before after : list DataFrame) (bad : DataFrame) w :
  reads env file_path encoding delimiter (Some chunk_size) (Chunked reader) ->
  tfr_chunks reader = before ++ bad :: after ->
  Forall (fun c => g ∈ columns c) before ->
  g ∉ columns bad ->
  exists w',
    _process_in_chunks env file_path g cols encoding delimiter chunk_size cb w
    = (Raise (ValueError ("分组列 '" +:+ g +:+ "' 不存在于当前数据块中。")), w') /\
    files w' = files w.
Proof.
  intros Hread Hchunks Hcols Hbad. unfold _process_in_chunks.
  erewrite M_bind_ret by apply report_eq.
  destruct (Hread (logged cb 10 w)) as (e & d & Hr).
  erewrite M_bind_ret by exact Hr. cbv beta iota.
  erewrite M_bind_ret by apply lift_eq.
  unfold for_reader. rewrite Hchunks.
  match goal with
  | |- context [for_fold ?b _ _] => set (body := b)
  end.
  destruct (for_fold_inv body (chunks_folded (logged cb 10 w)) before []
              (None, 0%nat, 0) (logged cb 10 w))
    as ([[res pr] cc] & w' & Hloop & Hfiles & Hres).
  { split; reflexivity. }
  { intros st pre chunk w1 Hin Hinv. rewrite Forall_forall in Hcols.
    destruct (chunk_turn cb _ st pre chunk w1 (Hcols chunk Hin) Hinv)
      as (st' & w1' & Hturn & Hinv').
    exists st', w1'. split; [|exact Hinv'].
    destruct st as [[res0 pr0] cc0]. exact Hturn. }
  exists w'. split; [|rewrite Hfiles; apply files_logged].
  erewrite M_bind_raise; [reflexivity|].
  erewrite M_bind_raise; [reflexivity|].
  rewrite for_fold_app. erewrite M_bind_ret by exact Hloop.
  simpl. erewrite M_bind_raise; [reflexivity|].
  unfold body. rewrite has_column_false by exact Hbad. reflexivity.
Qed.

End Processes.

(** ** Chunk-size invariance *)

Section Invariance.
Context {N : Numeric} {EA : ExactArith N}.
Variables (g : string) (cols : list string).

Lemma denotes_totals_elem (F : DataFrame) R (p : cell * list cell) :
  denotes g cols F R ->
  p ∈ group_totals g cols (Some F) <->
  exists k, k ∈ map (at_col g) R /\ p = (k, map (fun c => CNum (total g R k c)) cols).
Proof.
  intros (_ & _ & Hk & Hr). simpl. split.
  - intros Hp.
    apply (list_elem_of_fmap
             (fun r => (at_col g r, map (fun c => at_col c r) cols))) in Hp
      as (row & -> & Hrow).
    exists (at_col g row). split.
    + apply Hk. apply (list_elem_of_fmap_2 (at_col g)). exact Hrow.
    + f_equal. apply map_ext_elem. intros c Hc. apply at_col_lookup.
      apply (Hr row Hrow). exact Hc.
  - intros (k & Hin & ->). apply Hk in Hin.
    apply (list_elem_of_fmap (at_col g)) in Hin as (row & -> & Hrow).
    apply (list_elem_of_fmap
             (fun r => (at_col g r, map (fun c => at_col c r) cols))).
    exists row. split; [|exact Hrow]. f_equal. symmetry.
    apply map_ext_elem. intros c Hc. apply at_col_lookup.
    apply (Hr row Hrow). exact Hc.
Qed.

Lemma denotes_totals_nodup (F : DataFrame) R :
  denotes g cols F R -> NoDup (group_totals g cols (Some F)).
Proof.
  intros (_ & Hnd & _). simpl. apply (NoDup_fmap_1 fst).
  rewrite <- !map_is_fmap, map_map. simpl. exact Hnd.
Qed.

(** Two frames holding the grouped sums of the same rows have the same
    pairs of key and totals, up to the order of the rows. *)
Lemma denotes_same_totals (F F' : DataFrame) R :
  denotes g cols F R -> denotes g cols F' R ->
  group_totals g cols (Some F) ≡ₚ group_totals g cols (Some F').
Proof.
  intros H H'. apply NoDup_Permutation.
  - apply (denotes_totals_nodup F R H).
  - apply (denotes_totals_nodup F' R H').
  - intros p. rewrite (denotes_totals_elem F R p H), (denotes_totals_elem F' R p H').
    reflexivity.
Qed.

Lemma denotes_no_rows (F : DataFrame) : denotes g cols F [] -> rows F = [].
Proof.
  intros (_ & _ & Hk & _). destruct (rows F) as [|row rs]; [reflexivity|].
  exfalso. assert (at_col g row ∈ map (at_col g) []) as Hin by (apply Hk; left).
  inversion Hin.
Qed.

Lemma prepared_rows_slices (df : DataFrame) (chunks : list DataFrame) :
  slices_of df chunks -> chunks ≫= prepared_rows g cols = prepared_rows g cols df.
Proof.
  intros [Hcols Hrows]. unfold prepared_rows at 2. rewrite <- Hrows. clear Hrows.
  induction Hcols as [|c cs Hc Hcs IH]; [reflexivity|].
  change ((c :: cs) ≫= prepared_rows g cols)
    with (prepared_rows g cols c ++ (cs ≫= prepared_rows g cols)).
  change ((c :: cs) ≫= rows) with (rows c ++ (cs ≫= rows)).
  rewrite map_app, IH. unfold prepared_rows. rewrite Hc. reflexivity.
Qed.

End Invariance.


(** ** The outcome of [summarize] *)

Section Summarize.
Context {N : Numeric} (env : Env).

Lemma try_except_ret {A : Type} (body : M A) handler w a w' :
  body w = (Ret a, w') -> try_except body handler w = (Ret a, w').
Proof. intros H. unfold try_except. rewrite H. reflexivity. Qed.

Lemma try_except_raise {A : Type} (body : M A) handler w e w' :
  body w = (Raise e, w') -> try_except body handler w = handler e w'.
Proof. intros H. unfold try_except. rewrite H. reflexivity. Qed.

Lemma get_file_size_run file_path w : exists q, get_file_size env file_path w = (Ret q, w).
Proof.
  unfold get_file_size, try_except, mbind, M_bind, lift.
  destruct (getsize env file_path) as [n|e]; [|eexists; reflexivity].
  destruct (truediv n (1024 * 1024)); eexists; reflexivity.
Qed.

(** The call of the mode chosen by [use_chunking] and [chunk_size]. *)
Definition process (file_path g : string) (sum_cols : list string)
    (encoding delimiter : option string) (use_chunking : bool) (chunk_size : Z)
    (cb : bool) : M (option DataFrame) :=
  if use_chunking && negb (chunk_size =? 0)
  then _process_in_chunks env file_path g sum_cols encoding delimiter chunk_size cb
  else _process_entire_file env file_path g sum_cols encoding delimiter cb.

Lemma summarize_raises file_path g first rest output_path encoding delimiter
    use_chunking chunk_size descending cb w e w1 :
  process file_path g (first :: rest) encoding delimiter use_chunking chunk_size cb
    (logged cb 5 w) = (Raise e, w1) ->
  summarize env file_path g (first :: rest) output_path encoding delimiter use_chunking
    chunk_size descending cb w = (Ret (false, "汇总失败: " +:+ str_exn e), w1).
Proof.
  intros Hp. unfold summarize. erewrite try_except_raise; [reflexivity|].
  destruct (get_file_size_run file_path w) as (q & Hq).
  erewrite M_bind_ret by exact Hq.
  erewrite M_bind_ret by apply report_eq.
  erewrite M_bind_raise; [reflexivity|]. exact Hp.
Qed.

Lemma summarize_succeeds file_path g first rest output_path encoding delimiter
    use_chunking chunk_size descending cb w (F : DataFrame) w1 :
  process file_path g (first :: rest) encoding delimiter use_chunking chunk_size cb
    (logged cb 5 w) = (Ret (Some F), w1) ->
  df_empty F = false ->
  exists msg w' (F' : DataFrame),
    summarize env file_path g (first :: rest) output_path encoding delimiter use_chunking
      chunk_size descending cb w = (Ret (true, msg), w') /\
    files w' = <[output_path := ExcelFile F']> (files w1) /\
    rows F' ≡ₚ rows F.
Proof.
  intros Hp Hne. unfold summarize.
  destruct (get_file_size_run file_path w) as (q & Hq).
  destruct (descending && has_column F first) eqn:Hsort.
  - eexists _, _, (sort_values_desc F first). split; [|split].
    + erewrite try_except_ret; [reflexivity|].
      erewrite M_bind_ret by exact Hq.
      erewrite M_bind_ret by apply report_eq.
      erewrite M_bind_ret by exact Hp. cbv beta iota. rewrite Hne, Hsort.
      erewrite M_bind_ret
        by (erewrite M_bind_ret by apply report_eq; reflexivity).
      erewrite M_bind_ret by reflexivity. reflexivity.
    + simpl. rewrite files_logged. reflexivity.
    + simpl. rewrite merge_sort_Permutation. apply filter_app_complement.
  - eexists _, _, F. split; [|split].
    + erewrite try_except_ret; [reflexivity|].
      erewrite M_bind_ret by exact Hq.
      erewrite M_bind_ret by apply report_eq.
      erewrite M_bind_ret by exact Hp. cbv beta iota. rewrite Hne, Hsort.
      erewrite M_bind_ret by reflexivity.
      erewrite M_bind_ret by reflexivity. reflexivity.
    + reflexivity.
    + reflexivity.
Qed.

End Summarize.

(** ** Missing columns *)

Section Taxonomy.
Context {N : Numeric} {EA : ExactArith N} (env : Env).

Lemma process_entire_file_missing_key file_path g cols encoding delimiter cb
    (df : DataFrame) w :
  reads env file_path encoding delimiter None (Whole df) ->
  g ∉ columns df ->
  exists w',
    _process_entire_file env file_path g cols encoding delimiter cb w
    = (Raise (ValueError ("分组列 '" +:+ g +:+ "' 不存在于文件中。")), w') /\
    files w' = files w.
Proof.
  intros Hread Hg. unfold _process_entire_file.
  erewrite M_bind_ret by apply report_eq.
  destruct (Hread (logged cb 30 w)) as (e & d & Hr).
  erewrite M_bind_ret by exact Hr. cbv beta iota.
  erewrite M_bind_ret by apply lift_eq.
  erewrite M_bind_ret by apply report_eq.
  rewrite has_column_false by exact Hg. unfold negb.
  eexists. split; [reflexivity|]. rewrite !files_logged. reflexivity.
Qed.

(** A chunk without the grouping column makes the chunked computation
    raise, whatever happened on the chunks before it. *)
Lemma process_in_chunks_fails file_path g cols encoding delimiter chunk_size cb
    (reader : TextFileReader) (before after : list DataFrame) (bad : DataFrame) w :
  reads env file_path encoding delimiter (Some chunk_size) (Chunked reader) ->
  tfr_chunks reader = before ++ bad :: after ->
  g ∉ columns bad ->
  exists e w',
    _process_in_chunks env file_path g cols encoding delimiter chunk_size cb w = (Raise e, w').
Proof.
  intros Hread Hchunks Hbad. unfold _process_in_chunks.
  erewrite M_bind_ret by apply report_eq.
  destruct (Hread (logged cb 10 w)) as (e & d & Hr).
  erewrite M_bind_ret by exact Hr. cbv beta iota.
  erewrite M_bind_ret by apply lift_eq.
  unfold for_reader. rewrite Hchunks.
  match goal with
  | |- context [for_fold ?b _ _] => set (body := b)
  end.
  destruct (for_fold body (None, 0%nat, 0) before (logged cb 10 w)) as [[st|x] w1] eqn:Hloop.
  - eexists _, _.
    erewrite M_bind_raise; [reflexivity|].
    erewrite M_bind_raise; [reflexivity|].
    rewrite for_fold_app. erewrite M_bind_ret by exact Hloop.
    simpl. erewrite M_bind_raise; [reflexivity|].
    unfold body. destruct st as [[r p] c].
    rewrite has_column_false by exact Hbad. reflexivity.
  - eexists _, _.
    erewrite M_bind_raise; [reflexivity|].
    erewrite M_bind_raise; [reflexivity|].
    rewrite for_fold_app. erewrite M_bind_raise; [reflexivity|]. exact Hloop.
Qed.

Lemma sum_cells_zeros (s : Series) :
  Forall (fun c => c = CNum nzero) s -> sum_cells s = nzero.
Proof.
  unfold sum_cells. induction 1 as [|c s Hc _ IH]; simpl; [reflexivity|].
  rewrite Hc. simpl. rewrite nadd_zero_l. exact IH.
Qed.

Lemma total_zero g R k c :
  (forall r, r ∈ R -> at_col c r = CNum nzero) -> total g R k c = nzero.
Proof.
  intros H. unfold total. apply sum_cells_zeros. apply Forall_forall. intros x Hx.
  apply (list_elem_of_fmap (at_col c)) in Hx as (r & -> & Hr). apply H.
  unfold group_rows in Hr. apply list_elem_of_filter in Hr as [_ Hr]. exact Hr.
Qed.

Lemma denotes_not_empty g cols (F : DataFrame) R :
  denotes g cols F R -> R <> [] -> df_empty F = false.
Proof.
  intros (Hcols & _ & Hk & _) HR. unfold df_empty. rewrite Hcols.
  destruct R as [|r R]; [contradiction|].
  destruct (rows F) as [|row rs] eqn:Hrows; [|reflexivity].
  exfalso. assert (at_col g r ∈ map (at_col g) []) as Hin by (apply Hk; left).
  inversion Hin.
Qed.

(** A sum column the block lacks is zero in its prepared rows. *)
Lemma prepared_rows_missing g cols (df : DataFrame) c r :
  NoDup cols -> c ∈ cols -> c ∉ columns df -> r ∈ prepared_rows g cols df ->
  at_col c r = CNum nzero.
Proof.
  intros Hnd Hc Hcs Hr. unfold prepared_rows in Hr.
  apply (list_elem_of_fmap (prepared_row (columns df) g cols)) in Hr as (r0 & -> & _).
  apply coerce_row_missing; assumption.
Qed.

Lemma prepared_rows_length g cols (chunks : list DataFrame) :
  length (chunks ≫= prepared_rows g cols) = length (chunks ≫= rows).
Proof.
  induction chunks as [|c cs IH]; [reflexivity|].
  change (length (prepared_rows g cols c ++ (cs ≫= prepared_rows g cols))
          = length (rows c ++ (cs ≫= rows))).
  rewrite !length_app, IH. unfold prepared_rows. rewrite length_map. reflexivity.
Qed.

(** The pairs of key and totals of a frame that holds the grouped sums of
    the rows [R]. *)
Definition sums_of (g : string) (cols : list string) (F : DataFrame)
    (R : list (gmap string cell)) : Prop :=
  forall p, p ∈ group_totals g cols (Some F) <->
    exists k, k ∈ map (at_col g) R /\ p = (k, map (fun c => CNum (total g R k c)) cols).

Lemma sums_of_permuted g cols (F F' : DataFrame) R :
  denotes g cols F R -> rows F' ≡ₚ rows F -> sums_of g cols F' R.
Proof.
  intros Hden HP p. rewrite <- (denotes_totals_elem g cols F R p Hden).
  assert (group_totals g cols (Some F') ≡ₚ group_totals g cols (Some F)) as ->
    by (simpl; apply Permutation_map; exact HP).
  reflexivity.
Qed.

End Taxonomy.


(** ** The merged file *)

Section Schema.
Context {N : Numeric} (env : Env).

(** What [_process_chunk] does to one row of a block with labels [cs]. *)
Fixpoint fill_row (cs all_columns : list string) (r : gmap string cell) : gmap string cell :=
  match all_columns with
  | [] => r
  | col :: rest =>
      if decide (col ∈ cs) then fill_row cs rest r
      else fill_row (cs ++ [col]) rest (<[col := CStr ""]> r)
  end.

(** The cells of an output row: under each unified label the cell of the
    source row, or the empty string when the source has no such column. *)
Definition filled_cells (cs unified : list string) (r : gmap string cell) : list cell :=
  map (fun c => if decide (c ∈ cs) then at_col c r else CStr "") unified.

Definition data_lines (unified : list string) (df : DataFrame) : list csv_line :=
  map (fun r => DataLine (filled_cells (columns df) unified r)) (rows df).

Lemma fill_missing_rows (chunk : DataFrame) all_columns :
  rows (fill_missing chunk all_columns)
  = map (fill_row (columns chunk) all_columns) (rows chunk).
Proof.
  unfold fill_missing. revert chunk.
  induction all_columns as [|col rest IH]; intros chunk; simpl.
  - rewrite map_id. reflexivity.
  - destruct (decide (col ∈ columns chunk)) as [Hin|Hnin].
    + rewrite has_column_true by exact Hin. apply IH.
    + rewrite has_column_false by exact Hnin. rewrite IH. unfold setitem_scalar. simpl.
      rewrite has_column_false by exact Hnin. rewrite map_map. reflexivity.
Qed.

Lemma at_col_fill_row cs all_columns c r :
  at_col c (fill_row cs all_columns r)
  = if decide (c ∈ cs) then at_col c r
    else if decide (c ∈ all_columns) then CStr "" else at_col c r.
Proof.
  revert cs r. induction all_columns as [|col rest IH]; intros cs r; simpl.
  - destruct (decide (c ∈ cs)); reflexivity.
  - destruct (decide (col ∈ cs)) as [Hcol|Hcol].
    + rewrite IH. destruct (decide (c ∈ cs)) as [Hc|Hc]; [reflexivity|].
      assert (c <> col) as Hne by (intros ->; contradiction).
      destruct (decide (c ∈ rest)) as [Hr|Hr].
      * rewrite decide_True; [reflexivity|]. right. exact Hr.
      * rewrite decide_False; [reflexivity|].
        intros H. apply elem_of_cons in H as [H|H]; contradiction.
    + rewrite IH. destruct (decide (c ∈ cs)) as [Hc|Hc].
      * rewrite decide_True by (apply elem_of_app; left; exact Hc).
        apply at_col_insert_ne. intros ->. contradiction.
      * destruct (decide (c = col)) as [->|Hne].
        -- rewrite decide_True by (apply elem_of_app; right; left).
           rewrite at_col_insert. rewrite decide_True; [reflexivity|left].
        -- rewrite decide_False.
           ++ rewrite at_col_insert_ne by (intros Heq; apply Hne; symmetry; exact Heq).
              destruct (decide (c ∈ rest)) as [Hr|Hr].
              ** rewrite decide_True; [reflexivity|]. right. exact Hr.
              ** rewrite decide_False; [reflexivity|].
                 intros H. apply elem_of_cons in H as [H|H]; contradiction.
           ++ intros H. apply elem_of_app in H as [H|H]; [contradiction|].
              apply list_elem_of_singleton in H. contradiction.
Qed.

(** The file after [lines] are written to it, from its start or at its
    end. *)
Definition appended (path : string) (lines : list csv_line) (truncate : bool)
    (fs : gmap string out_file) : gmap string out_file :=
  <[path := CsvFile (match fs !! path with
                     | Some (CsvFile ls) => if truncate then [] else ls
                     | _ => []
                     end ++ lines)]> fs.

Lemma process_chunk_run (chunk : DataFrame) all_columns output_path write_header w :
  _process_chunk chunk all_columns output_path write_header w
  = (Ret tt,
     {| progress := progress w; stdout := stdout w;
        files := appended output_path
                   ((if write_header then [HeaderLine all_columns] else [])
                    ++ data_lines all_columns chunk) write_header (files w) |}).
Proof.
  unfold _process_chunk, to_csv, appended, csv_lines, reindex_columns. simpl.
  rewrite fill_missing_rows, !map_map. unfold data_lines, filled_cells.
  do 6 f_equal. apply map_ext. intros r. f_equal.
  apply map_ext_elem. intros c Hc. unfold at_col at 1.
  rewrite (lookup_sums all_columns
             (fun c' => at_col c' (fill_row (columns chunk) all_columns r)) c).
  rewrite decide_True by exact Hc. simpl. rewrite at_col_fill_row.
  destruct (decide (c ∈ columns chunk)); [reflexivity|].
  rewrite decide_True by exact Hc. reflexivity.
Qed.

End Schema.

Section Detecting.
Context {N : Numeric} (env : Env).

(** The detectors return, and only print. *)
Lemma detect_encoding_returns file_path w :
  exists enc out, detect_encoding env file_path w = (Ret enc, printed w out).
Proof.
  unfold detect_encoding, try_except, mbind, M_bind, lift, print.
  destruct (open_rb env file_path) as [raw|x]; simpl; [|eexists _, [_]; reflexivity].
  destruct (chardet_detect env (take (Z.to_nat 50000) raw)) as [result|x]; simpl;
    [|eexists _, [_]; reflexivity].
  destruct (default (Some 0%Q) (cd_confidence result)) as [c|]; simpl;
    [|eexists _, [_]; reflexivity].
  destruct (float_lt c confidence_threshold);
    eexists _, []; rewrite printed_nil; reflexivity.
Qed.

Lemma detect_delimiter_returns file_path encoding w :
  exists delim out, detect_delimiter env file_path encoding w = (Ret delim, printed w out).
Proof.
  unfold detect_delimiter, try_except, mbind, M_bind, lift, print.
  destruct (open_text env file_path encoding) as [text|x]; [|eexists _, [_]; reflexivity].
  destruct (readline text) as [l1 rest].
  unfold max_by, delimiter_candidates.
  match goal with
  | |- context [float_lt 0 ?x] => destruct (float_lt 0 x)
  end; eexists _, []; rewrite printed_nil; reflexivity.
Qed.

Lemma detect_file_params_returns file_path encoding delimiter w :
  exists used_encoding used_delimiter out,
    _detect_file_params env file_path encoding delimiter w
    = (Ret (used_encoding, used_delimiter), printed w out).
Proof.
  unfold _detect_file_params.
  assert (exists enc out1,
            (if is_auto encoding then detect_encoding env file_path else mret encoding) w
            = (Ret enc, printed w out1)) as (enc & out1 & Henc).
  { destruct (is_auto encoding); [apply detect_encoding_returns|].
    exists encoding, []. rewrite printed_nil. reflexivity. }
  erewrite M_bind_ret by exact Henc.
  assert (exists del out2,
            (if is_auto delimiter
             then d ← detect_delimiter env file_path enc; mret (Some d)
             else mret delimiter) (printed w out1)
            = (Ret del, printed (printed w out1) out2)) as (del & out2 & Hdel).
  { destruct (is_auto delimiter).
    - destruct (detect_delimiter_returns file_path enc (printed w out1)) as (d & out & Hd).
      exists (Some d), out. erewrite M_bind_ret by exact Hd. reflexivity.
    - exists delimiter, []. rewrite printed_nil. reflexivity. }
  erewrite M_bind_ret by exact Hdel. rewrite printed_printed.
  eexists _, _, _. reflexivity.
Qed.

End Detecting.

Section Collecting.
Context {N : Numeric} (env : Env).
Variables (encoding delimiter : option string) (cb : bool).

(** The labels of all the frames. *)
Definition column_union (dfs : list DataFrame) : gset string :=
  ⋃ (map (fun df => list_to_set (columns df)) dfs).

Lemma scaled_progress_returns base i total width :
  total <> 0 -> exists p, scaled_progress base i total width = Ret p.
Proof.
  intros H. unfold scaled_progress, truediv.
  destruct (total =? 0) eqn:E; [apply Z.eqb_eq in E; contradiction|].
  simpl. eexists. reflexivity.
Qed.

Lemma collect_all_columns_run file_paths (dfs : list DataFrame) w :
  Forall2 (fun p df => reads env p encoding delimiter None (Whole df)) file_paths dfs ->
  exists w',
    _collect_all_columns env file_paths encoding delimiter cb w
    = (Ret (merge_sort String.le (elements (column_union dfs))), w') /\
    files w' = files w.
Proof.
  intros Hreads. unfold _collect_all_columns, enumerate.
  match goal with
  | |- context [for_fold ?b _ _] => set (body := b)
  end.
  assert (forall paths dfs',
            Forall2 (fun p df => reads env p encoding delimiter None (Whole df)) paths dfs' ->
            (paths <> [] -> Z.of_nat (length file_paths) <> 0) ->
            forall (idx : nat -> Z) (S : gset string) w1,
            exists w',
              for_fold body S (imap (fun i x => (idx i, x)) paths) w1
              = (Ret (S ∪ column_union dfs'), w') /\ files w' = files w1) as Hloop.
  { induction 1 as [|p df paths dfs' Hp _ IH]; intros Hnz idx S w1.
    - exists w1. unfold column_union. simpl. rewrite (right_id_L ∅ (∪)).
      split; reflexivity.
    - assert (Z.of_nat (length file_paths) <> 0) as Htot by (apply Hnz; discriminate).
      rewrite imap_cons. simpl for_fold.
      assert (exists w2,
                (if cb
                 then p0 ← lift (scaled_progress 10 (idx 0%nat)
                                   (Z.of_nat (length file_paths)) 20);
                      report cb p0
                 else mret tt) w1 = (Ret tt, w2) /\ files w2 = files w1)
        as (w2 & Hrep & Hfiles2).
      { destruct cb; [|exists w1; split; reflexivity].
        destruct (scaled_progress_returns 10 (idx 0%nat) _ 20 Htot) as (q & Hq).
        rewrite Hq. erewrite M_bind_ret by apply lift_eq.
        eexists. split; [apply report_eq|apply files_logged]. }
      destruct (Hp w2) as (e & d & Hr).
      assert (body S (idx 0%nat, p) w1 = (Ret (S ∪ list_to_set (columns df)), w2)) as Hbody.
      { unfold body. erewrite M_bind_ret by exact Hrep.
        erewrite M_bind_ret by exact Hr. cbv beta iota.
        erewrite M_bind_ret by apply lift_eq. reflexivity. }
      erewrite M_bind_ret by exact Hbody.
      destruct (IH (fun _ => Htot) (fun i => idx (Datatypes.S i))
                  (S ∪ list_to_set (columns df)) w2) as (w' & Hrun & Hfiles).
      exists w'. split; [|rewrite Hfiles; exact Hfiles2].
      unfold column_union. simpl. rewrite (assoc_L (∪)). exact Hrun. }
  destruct (Hloop file_paths dfs Hreads) with (idx := Z.of_nat) (S := (∅ : gset string))
    (w1 := w) as (w' & Hrun & Hfiles).
  { intros Hne Hz. destruct file_paths; [contradiction|discriminate]. }
  exists w'. split; [|exact Hfiles].
  erewrite M_bind_ret by exact Hrun. rewrite (left_id_L ∅ (∪)). reflexivity.
Qed.

(** The list returned is sorted, without repetition, and holds the labels of
    the frames and nothing else. *)
Lemma sorted_union_spec (dfs : list DataFrame) :
  let unified := merge_sort String.le (elements (column_union dfs)) in
  StronglySorted String.le unified /\ NoDup unified /\
  (forall c, c ∈ unified <-> exists df, df ∈ dfs /\ c ∈ columns df).
Proof.
  intros unified. subst unified. split; [|split].
  - apply StronglySorted_merge_sort; apply _.
  - rewrite merge_sort_Permutation. apply NoDup_elements.
  - intros c. rewrite merge_sort_Permutation, elem_of_elements.
    unfold column_union. rewrite elem_of_union_list. split.
    + intros (X & HX & Hc). apply (list_elem_of_fmap (fun df => list_to_set (columns df))) in HX
        as (df & -> & Hdf).
      exists df. split; [exact Hdf|]. apply elem_of_list_to_set in Hc. exact Hc.
    + intros (df & Hdf & Hc). exists (list_to_set (columns df)). split.
      * apply (list_elem_of_fmap_2 (fun df => list_to_set (columns df))). exact Hdf.
      * apply elem_of_list_to_set. exact Hc.
Qed.

End Collecting.

Section Merging.
Context {N : Numeric} (env : Env).
Variables (output_path : string) (all_columns : list string).
Variables (encoding delimiter : option string) (use_chunking : bool) (chunk_size : Z).
Variable cb : bool.

(** What the loops of [_do_merge] keep.  Until a block is written the flag
    is up and the files are those of the start; from then on the flag is
    down and the output holds the header and the lines written so far. *)
Definition written (fs0 : gmap string out_file) (flag : bool) (w : world)
    (ls : list csv_line) : Prop :=
  if flag then ls = [] /\ files w = fs0
  else files w = <[output_path := CsvFile (HeaderLine all_columns :: ls)]> fs0.

Lemma written_files fs0 flag w w' ls :
  files w' = files w -> written fs0 flag w ls -> written fs0 flag w' ls.
Proof. unfold written. intros ->. auto. Qed.

Lemma process_chunk_written fs0 flag w ls (chunk : DataFrame) :
  written fs0 flag w ls ->
  exists w',
    _process_chunk chunk all_columns output_path flag w = (Ret tt, w') /\
    written fs0 false w' (ls ++ data_lines all_columns chunk).
Proof.
  intros Hw. rewrite process_chunk_run. eexists. split; [reflexivity|].
  unfold written, appended in *. simpl. destruct flag.
  - destruct Hw as [-> ->]. destruct (fs0 !! output_path) as [[?|?]|]; reflexivity.
  - rewrite Hw, lookup_insert_eq, insert_insert_eq. reflexivity.
Qed.

Lemma merge_chunks_run fs0 base (chunks : list DataFrame) :
  forall flag idx w ls,
    written fs0 flag w ls ->
    exists idx' w',
      for_fold (fun '(first_file_flag, chunk_idx) chunk =>
                  _ ← _process_chunk chunk all_columns output_path first_file_flag;
                  _ ← report cb (Z.min 90 (base + (chunk_idx + 1) * 5));
                  mret (false, chunk_idx + 1)) (flag, idx) chunks w
      = (Ret (match chunks with [] => flag | _ => false end, idx'), w') /\
      written fs0 (match chunks with [] => flag | _ => false end) w'
        (ls ++ chunks ≫= data_lines all_columns).
Proof.
  induction chunks as [|c cs IH]; intros flag idx w ls Hw.
  - exists idx, w. simpl. rewrite app_nil_r. split; [reflexivity|exact Hw].
  - simpl for_fold.
    destruct (process_chunk_written fs0 flag w ls c Hw) as (w1 & Hpc & Hw1).
    erewrite M_bind_ret
      by (erewrite M_bind_ret by exact Hpc;
          erewrite M_bind_ret by apply report_eq; reflexivity).
    destruct (IH false (idx + 1) (logged cb (Z.min 90 (base + (idx + 1) * 5)) w1)
                (ls ++ data_lines all_columns c)) as (idx' & w' & Hrun & Hw').
    { eapply written_files; [apply files_logged|exact Hw1]. }
    exists idx', w'.
    assert (match cs with [] => false | _ => false end = false) as Hf
      by (destruct cs; reflexivity).
    rewrite Hf in Hrun, Hw'. split; [exact Hrun|].
    change ((c :: cs) ≫= data_lines all_columns)
      with (data_lines all_columns c ++ (cs ≫= data_lines all_columns)).
    rewrite app_assoc. exact Hw'.
Qed.

Lemma data_lines_slices (df : DataFrame) (chunks : list DataFrame) :
  slices_of df chunks -> chunks ≫= data_lines all_columns = data_lines all_columns df.
Proof.
  intros [Hcols Hrows]. unfold data_lines at 2. rewrite <- Hrows. clear Hrows.
  induction Hcols as [|c cs Hc Hcs IH]; [reflexivity|].
  change ((c :: cs) ≫= data_lines all_columns)
    with (data_lines all_columns c ++ (cs ≫= data_lines all_columns)).
  change ((c :: cs) ≫= rows) with (rows c ++ (cs ≫= rows)).
  rewrite map_app, IH. unfold data_lines. rewrite Hc. reflexivity.
Qed.

(** How [_do_merge] reads a file: whole, or in chunks that are slices of
    the frame. *)
Definition readable (p : string) (df : DataFrame) : Prop :=
  if use_chunking && negb (chunk_size =? 0)
  then exists reader,
         reads env p encoding delimiter (Some chunk_size) (Chunked reader) /\
         tfr_error reader = None /\ slices_of df (tfr_chunks reader)
  else reads env p encoding delimiter None (Whole df).

(** When a block is sure to be written: in chunked mode a file without rows
    may yield no chunk. *)
Definition some_block (dfs : list DataFrame) : Prop :=
  if use_chunking && negb (chunk_size =? 0) then dfs ≫= rows <> [] else dfs <> [].

Lemma do_merge_run file_paths (dfs : list DataFrame) w :
  Forall2 readable file_paths dfs ->
  exists flag w',
    _do_merge env file_paths output_path all_columns encoding delimiter use_chunking
      chunk_size cb w = (Ret tt, w') /\
    written (files w) flag w' (dfs ≫= data_lines all_columns) /\
    (some_block dfs -> flag = false).
Proof.
  intros Hreads. unfold _do_merge, enumerate.
  match goal with
  | |- context [for_fold ?b _ _] => set (body := b)
  end.
  assert (forall paths dfs',
            Forall2 readable paths dfs' ->
            (paths <> [] -> Z.of_nat (length file_paths) <> 0) ->
            forall (idx : nat -> Z) flag ls w1,
            written (files w) flag w1 ls ->
            exists flag' w',
              for_fold body flag (imap (fun i x => (idx i, x)) paths) w1 = (Ret flag', w') /\
              written (files w) flag' w' (ls ++ dfs' ≫= data_lines all_columns) /\
              (flag = false \/ some_block dfs' -> flag' = false)) as Hloop.
  { induction 1 as [|p df paths dfs' Hp _ IH]; intros Hnz idx flag ls w1 Hw.
    - exists flag, w1. simpl. rewrite app_nil_r. split; [reflexivity|].
      split; [exact Hw|]. intros [H|H]; [exact H|]. exfalso. revert H. unfold some_block.
      destruct (use_chunking && negb (chunk_size =? 0)); intros H; apply H; reflexivity.
    - assert (Z.of_nat (length file_paths) <> 0) as Htot by (apply Hnz; discriminate).
      rewrite imap_cons. simpl for_fold.
      assert (exists flag1 w2,
                body flag (idx 0%nat, p) w1 = (Ret flag1, w2) /\
                written (files w) flag1 w2 (ls ++ data_lines all_columns df) /\
                (flag = false \/ (if use_chunking && negb (chunk_size =? 0)
                                  then rows df <> [] else True) -> flag1 = false))
        as (flag1 & w2 & Hbody & Hw2 & Hflag1).
      { unfold body.
        destruct (scaled_progress_returns 30 (idx 0%nat) _ 60 Htot) as (q & Hq).
        rewrite Hq. erewrite M_bind_ret by apply lift_eq.
        erewrite M_bind_ret by apply report_eq.
        assert (written (files w) flag (logged cb q w1) ls) as Hw1
          by (eapply written_files; [apply files_logged|exact Hw]).
        unfold readable in Hp.
        destruct (use_chunking && negb (chunk_size =? 0)).
        - destruct Hp as (reader & Hread & Herr & Hslices).
          destruct (Hread (logged cb q w1)) as (e & d & Hr).
          erewrite M_bind_ret by exact Hr. cbv beta iota.
          erewrite M_bind_ret by apply lift_eq.
          unfold for_reader. rewrite Herr.
          destruct (merge_chunks_run (files w) q (tfr_chunks reader) flag 0
                      (logged cb q w1) ls Hw1) as (idx' & w2 & Hrun & Hw2).
          erewrite M_bind_ret
            by (erewrite M_bind_ret by exact Hrun; reflexivity).
          cbv beta iota. eexists _, w2. split; [reflexivity|].
          rewrite (data_lines_slices df _ Hslices) in Hw2.
          split; [exact Hw2|].
          intros [->|Hrows]; [destruct (tfr_chunks reader); reflexivity|].
          destruct (tfr_chunks reader) as [|c cs] eqn:Hcs; [|reflexivity].
          exfalso. apply Hrows. destruct Hslices as [_ <-]. reflexivity.
        - destruct (Hp (logged cb q w1)) as (e & d & Hr).
          erewrite M_bind_ret by exact Hr. cbv beta iota.
          erewrite M_bind_ret by apply lift_eq.
          destruct (process_chunk_written (files w) flag (logged cb q w1) ls df Hw1)
            as (w2 & Hpc & Hw2).
          erewrite M_bind_ret by exact Hpc.
          eexists _, w2. split; [reflexivity|]. split; [exact Hw2|]. reflexivity. }
      erewrite M_bind_ret by exact Hbody.
      destruct (IH (fun _ => Htot) (fun i => idx (S i)) flag1
                  (ls ++ data_lines all_columns df) w2 Hw2)
        as (flag' & w' & Hrun & Hw' & Hflag').
      exists flag', w'. split; [exact Hrun|].
      change ((df :: dfs') ≫= data_lines all_columns)
        with (data_lines all_columns df ++ (dfs' ≫= data_lines all_columns)).
      rewrite app_assoc. split; [exact Hw'|].
      intros Hsome. apply Hflag'.
      destruct Hsome as [Hf|Hsome]; [left; apply Hflag1; left; exact Hf|].
      unfold some_block in *.
      destruct (use_chunking && negb (chunk_size =? 0)).
      + destruct (rows df) as [|r rs] eqn:Hrows.
        * right. intros Hnil. apply Hsome.
          change ((df :: dfs') ≫= rows) with (rows df ++ (dfs' ≫= rows)).
          rewrite Hrows, Hnil. reflexivity.
        * left. apply Hflag1. right. discriminate.
      + left. apply Hflag1. right. exact I. }
  destruct (Hloop file_paths dfs Hreads) with (idx := Z.of_nat) (flag := true)
    (ls := @nil csv_line) (w1 := w) as (flag' & w1 & Hrun & Hw1 & Hflag).
  { intros Hne Hz. destruct file_paths; [contradiction|discriminate]. }
  { split; reflexivity. }
  exists flag', (logged cb 95 w1). split.
  - erewrite M_bind_ret by exact Hrun. apply report_eq.
  - split; [eapply written_files; [apply files_logged|exact Hw1]|].
    intros Hsome. apply Hflag. right. exact Hsome.
Qed.

End Merging.


(** ** The progress log *)

Section ProgressLog.
Context {N : Numeric}.

(** The percentages reported so far are in non-decreasing order and lie
    between 0 and [hi]. *)
Definition progress_upto (hi : Z) (w : world) : Prop :=
  0 <= hi /\ StronglySorted Z.le (progress w) /\ Forall (fun p => 0 <= p <= hi) (progress w).

(** From a log within [lo], the computation leaves a log within [post a]
    when it returns [a], and a log within [hi] when it raises. *)
Definition climbs {A : Type} (lo : Z) (m : M A) (post : A -> Z) (hi : Z) : Prop :=
  forall w, progress_upto lo w ->
    match m w with
    | (Ret a, w') => progress_upto (post a) w' /\ post a <= hi
    | (Raise _, w') => progress_upto hi w'
    end.

(** A computation that leaves the log as it is. *)
Definition quiet {A : Type} (m : M A) : Prop := forall w, progress (m w).2 = progress w.

Lemma progress_upto_mono lo hi w : lo <= hi -> progress_upto lo w -> progress_upto hi w.
Proof.
  intros Hle (H0 & Hs & Hall). split; [lia|]. split; [exact Hs|].
  eapply Forall_impl; [exact Hall|]. simpl. intros p Hp. lia.
Qed.

Lemma progress_upto_same lo w w' :
  progress w' = progress w -> progress_upto lo w -> progress_upto lo w'.
Proof. unfold progress_upto. intros ->. auto. Qed.

Lemma progress_upto_logged lo p cb w :
  lo <= p -> progress_upto lo w -> progress_upto p (logged cb p w).
Proof.
  intros Hle Hw. destruct cb; [|apply (progress_upto_mono lo); assumption].
  destruct Hw as (H0 & Hs & Hall). unfold logged, progress_upto. simpl.
  split; [lia|]. split.
  - apply StronglySorted_app_2; [|exact Hs|repeat constructor].
    intros x1 x2 Hx1 Hx2. apply list_elem_of_singleton in Hx2. subst x2.
    rewrite Forall_forall in Hall. specialize (Hall x1 Hx1). simpl in Hall. lia.
  - apply Forall_app. split.
    + eapply Forall_impl; [exact Hall|]. simpl. intros q Hq. lia.
    + repeat constructor; lia.
Qed.

Lemma quiet_ret {A : Type} (a : A) : quiet (mret a).
Proof. intros w. reflexivity. Qed.

Lemma quiet_lift {A : Type} (o : outcome A) : quiet (lift o).
Proof. intros w. reflexivity. Qed.

Lemma quiet_raise {A : Type} (e : exn) : quiet (@raise N A e).
Proof. intros w. reflexivity. Qed.

Lemma quiet_print line : quiet (print line).
Proof. intros w. reflexivity. Qed.

Lemma quiet_bind {A B : Type} (m : M A) (k : A -> M B) :
  quiet m -> (forall a, quiet (k a)) -> quiet (m ≫= k).
Proof.
  intros Hm Hk w. unfold mbind, M_bind. specialize (Hm w).
  destruct (m w) as [[a|e] w']; simpl in *; [|exact Hm].
  rewrite (Hk a w'). exact Hm.
Qed.

Lemma quiet_try_except {A : Type} (body : M A) handler :
  quiet body -> (forall e, quiet (handler e)) -> quiet (try_except body handler).
Proof.
  intros Hb Hh w. unfold try_except. specialize (Hb w).
  destruct (body w) as [[a|e] w']; simpl in *; [exact Hb|].
  rewrite (Hh e w'). exact Hb.
Qed.

Lemma quiet_for_fold {A S : Type} (body : S -> A -> M S) xs :
  (forall s x, quiet (body s x)) -> forall s, quiet (for_fold body s xs).
Proof.
  intros Hb. induction xs as [|x xs IH]; intros s; simpl; [apply quiet_ret|].
  apply quiet_bind; [apply Hb|exact IH].
Qed.

Lemma climbs_quiet {A : Type} (m : M A) lo (post : A -> Z) hi :
  quiet m -> lo <= hi -> (forall a, lo <= post a <= hi) -> climbs lo m post hi.
Proof.
  intros Hq Hle Hpost w Hw. specialize (Hq w). destruct (m w) as [[a|e] w']; simpl in Hq.
  - destruct (Hpost a) as [H1 H2]. split; [|exact H2].
    apply (progress_upto_mono lo); [exact H1|].
    apply (progress_upto_same lo w); assumption.
  - apply (progress_upto_mono lo); [exact Hle|].
    apply (progress_upto_same lo w); assumption.
Qed.

Lemma climbs_ret {A : Type} (a : A) lo (post : A -> Z) hi :
  lo <= post a <= hi -> climbs lo (mret a) post hi.
Proof.
  intros [H1 H2] w Hw. split; [|exact H2]. apply (progress_upto_mono lo); assumption.
Qed.

Lemma climbs_report cb p lo (post : unit -> Z) hi :
  lo <= p -> p <= post tt <= hi -> climbs lo (report cb p) post hi.
Proof.
  intros Hlo Hp w Hw. rewrite report_eq. split; [|lia].
  apply (progress_upto_mono p); [lia|]. apply (progress_upto_logged lo); assumption.
Qed.

Lemma climbs_bind {A B : Type} (m : M A) (k : A -> M B) lo (mid : A -> Z) post hi :
  climbs lo m mid hi -> (forall a, climbs (mid a) (k a) post hi) ->
  climbs lo (m ≫= k) post hi.
Proof.
  intros Hm Hk w Hw. unfold mbind, M_bind. specialize (Hm w Hw).
  destruct (m w) as [[a|e] w']; [|exact Hm].
  destruct Hm as [Hm _]. apply (Hk a w' Hm).
Qed.

Lemma climbs_try_except {A : Type} (body : M A) handler lo (post : A -> Z) mid hi :
  climbs lo body post mid -> mid <= hi ->
  (forall e, climbs mid (handler e) post hi) ->
  climbs lo (try_except body handler) post hi.
Proof.
  intros Hb Hle Hh w Hw. unfold try_except. specialize (Hb w Hw).
  destruct (body w) as [[a|e] w'].
  - destruct Hb as [Hb Hpost]. split; [exact Hb|lia].
  - apply (Hh e w' Hb).
Qed.

Lemma climbs_weaken {A : Type} (m : M A) lo lo' (post post' : A -> Z) hi hi' :
  climbs lo m post hi -> lo' <= lo -> hi <= hi' ->
  (forall a, post a <= post' a <= hi') ->
  climbs lo' m post' hi'.
Proof.
  intros Hm Hlo Hhi Hpost w Hw.
  specialize (Hm w (progress_upto_mono lo' lo w Hlo Hw)).
  destruct (m w) as [[a|e] w'].
  - destruct Hm as [Hm _]. destruct (Hpost a) as [H1 H2]. split; [|exact H2].
    apply (progress_upto_mono (post a)); assumption.
  - apply (progress_upto_mono hi); assumption.
Qed.

(** A loop whose level is a function of the loop variables. *)
Lemma climbs_for_fold {A S : Type} (body : S -> A -> M S) (lv : S -> Z) hi xs :
  (forall s x, climbs (lv s) (body s x) lv hi) -> (forall s, lv s <= hi) ->
  forall s, climbs (lv s) (for_fold body s xs) lv hi.
Proof.
  intros Hb Hhi. induction xs as [|x xs IH]; intros s; simpl.
  - apply climbs_ret. split; [lia|apply Hhi].
  - eapply climbs_bind; [apply Hb|]. intros s'. apply IH.
Qed.

Lemma quiet_read_csv_robust (env : Env) file_path encoding delimiter chunksize :
  quiet (read_csv_robust env file_path encoding delimiter chunksize).
Proof.
  intros w.
  destruct (read_csv_robust_returns env file_path chunksize encoding delimiter w)
    as (r & out & ->). reflexivity.
Qed.

Lemma quiet_get_file_size (env : Env) file_path : quiet (get_file_size env file_path).
Proof.
  intros w. destruct (get_file_size_run env file_path w) as (q & ->). reflexivity.
Qed.

Lemma quiet_to_excel path (df : DataFrame) : quiet (to_excel path df).
Proof. intros w. reflexivity. Qed.

Lemma quiet_coerce_sum_columns where_ (df : DataFrame) sum_cols :
  quiet (coerce_sum_columns where_ df sum_cols).
Proof.
  unfold coerce_sum_columns. apply quiet_for_fold. intros s x.
  destruct (has_column s x).
  - apply quiet_bind; [apply quiet_lift|]. intros a. apply quiet_ret.
  - apply quiet_bind; [apply quiet_print|]. intros a. apply quiet_ret.
Qed.

Lemma quiet_summarize_block where_ (df : DataFrame) group_col sum_cols :
  quiet (summarize_block where_ df group_col sum_cols).
Proof.
  unfold summarize_block. apply quiet_bind; [apply quiet_lift|].
  intros s. apply quiet_coerce_sum_columns.
Qed.

End ProgressLog.

(** ** The properties on sample files *)

Lemma hint_candidates_cons hint defaults :
  defaults <> [] -> exists h hs, hint_candidates hint defaults = h :: hs.
Proof.
  intros Hd. unfold hint_candidates.
  destruct defaults as [|d ds]; [contradiction|].
  destruct hint as [h|]; [destruct (truthy (Some h) && negb (String.eqb h "auto"))|]; eauto.
Qed.

(** In a directory of parsed files, a listed file reads as its frame under
    any hints. *)
Lemma directory_reads_whole dir path df encoding delimiter :
  Samples.lookup_file dir path = Ret df ->
  reads (Samples.directory dir) path encoding delimiter None (Whole df).
Proof.
  intros Hf w. unfold read_csv_robust.
  destruct (hint_candidates_cons encoding default_encodings) as (e & es & ->); [discriminate|].
  destruct (hint_candidates_cons delimiter default_delimiters) as (d & ds & ->); [discriminate|].
  simpl. unfold read_attempt. simpl. rewrite Hf. simpl. eexists _, _. reflexivity.
Qed.

Section OnSamples.
Import Samples.
#[local] Existing Instance Z_numeric.

Local Abbreviation chunked_reader k df :=
  {| tfr_chunks := chunks_of k df; tfr_error := None |}.

(** Closes a goal [x ∉ l] on literal strings. *)
Local Ltac absent :=
  let H := fresh in
  intros H; repeat (apply elem_of_cons in H as [H|H]; [discriminate H|]); inversion H.


Lemma explicit_hints_fall_back_witness :
  read_csv_robust picky "utf8.csv" (Some "gbk") (Some ";") None w0
  = (Ret (Some (Whole one_row), Some "utf-8", Some ","), w0).
Proof.
  apply (explicit_hints_fall_back picky "utf8.csv" "gbk" ";" None w0 (Whole one_row)
           (ValueError "could not parse")); try discriminate; reflexivity.
Defined.

Lemma coercion_idempotent_witness :
  let c : cell := CStr "1,234" in
  let s : Series := [CStr "1,234"; CStr "12a"; CNum 7; CNaN] in
  coerce_cell (coerce_cell c) = coerce_cell c /\
  coerce_numeric (coerce_numeric s) = coerce_numeric s /\
  (parse_num (remove_char ","%char (str_cell c)) = None -> coerce_cell c = CNum nzero).
Proof.
  exact (@coercion_idempotent Z_numeric Z_repr_laws (CStr "1,234")
           [CStr "1,234"; CStr "12a"; CNum 7; CNaN]).
Defined.




(** C3 fails for [merge_files] in chunked mode.  Two files, the first of
    seven rows, merged in chunks of one row: the seven chunks of the first
    file bring the progress to 65, and the second file starts at its base
    value 30 + int(1 / 2 * 60) = 60. *)
Theorem merge_progress_not_monotone :
  let run := merge_files two_files ["a.csv"; "b.csv"] "out.csv" (Some "auto") (Some "auto")
               true 1 true w0 in
  run.1 = Ret (true, "合并完成！共 2 个文件，保存至: out.csv") /\
  progress run.2 = [5; 10; 10; 20; 30; 30; 35; 40; 45; 50; 55; 60; 65; 60; 65; 95] /\
  ~ Sorted Z.le (progress run.2).
Proof.
  assert (progress (merge_files two_files ["a.csv"; "b.csv"] "out.csv" (Some "auto")
                      (Some "auto") true 1 true w0).2
          = [5; 10; 10; 20; 30; 30; 35; 40; 45; 50; 55; 60; 65; 60; 65; 95]) as Hp
    by reflexivity.
  split; [reflexivity|]. split; [exact Hp|].
  cbv zeta. rewrite Hp. intros Hs.
  repeat (apply Sorted_inv in Hs as [Hs Hhd];
          first [apply HdRel_inv in Hhd; lia | clear Hhd]).
Qed.




End OnSamples.
